(** * go-github-mcp: the request handlers of [github_service.go]

    A shallow embedding of the three tool handlers
    ([listPullRequestsHandler], [getUnresolvedCommentsHandler],
    [getFullCommentsHandler]), of [parsePRURL] with its regular expression,
    and of the tool declarations of [main.go].

    Go strings are byte sequences; they are modelled by [string], whose
    characters are the 8-bit [ascii] values, so [String.length] is Go's
    [len].  The two remote services (REST search, GraphQL query) are
    functions handed to the handlers.  What the handlers write to the
    process log is left out: no result depends on it. *)

From Stdlib Require Import ZArith Lia Bool List Ascii String.
From Stdlib Require Import Numbers.DecimalString Numbers.DecimalPos.
From stdpp Require Import base option gmap strings.

Import ListNotations.
Local Open Scope string_scope.
Local Open Scope Z_scope.

(** ** Byte strings *)

Module Str.

Definition lf : ascii := Ascii.ascii_of_nat 10.
Definition slash : ascii := "/"%char.

(** [strings.Join(parts, sep)] *)
Fixpoint join (sep : string) (parts : list string) : string :=
  match parts with
  | [] => EmptyString
  | [p] => p
  | p :: rest => p +:+ sep +:+ join sep rest
  end.

(** [strings.Split(s, "\n")] for a one-byte separator: the pieces between
    the separators, one more than there are separators. *)
Fixpoint split (sep : ascii) (s : string) : list string :=
  match s with
  | EmptyString => [EmptyString]
  | String c rest =>
      if Ascii.eqb c sep then EmptyString :: split sep rest
      else match split sep rest with
           | [] => [String c EmptyString]
           | p :: ps => String c p :: ps
           end
  end.

Fixpoint count (c : ascii) (s : string) : nat :=
  match s with
  | EmptyString => 0%nat
  | String d rest => ((if Ascii.eqb d c then 1 else 0) + count c rest)%nat
  end.

Fixpoint forallb (p : ascii -> bool) (s : string) : bool :=
  match s with
  | EmptyString => true
  | String c rest => p c && forallb p rest
  end.

(** [%d] of [fmt.Sprintf] for an [int]. *)
Definition fmt_d (n : Z) : string := NilZero.string_of_int (Z.to_int n).

End Str.

Abbreviation nl := (String Str.lf EmptyString).

(** ** The tool-hosting library ([mcp-go]) as the handlers use it *)

Module mcp.

(** A decoded JSON argument value (Go's [any]). *)
Inductive ArgValue : Type :=
| AString (s : string)
| ABool (b : bool)
| ANumber (n : Z)
| ANull
| AComposite.

Record CallToolRequest : Type := { Arguments : gmap string ArgValue }.

Record CallToolResult : Type := { IsError : bool; Text : string }.

Definition NewToolResultText (text : string) : CallToolResult :=
  {| IsError := false; Text := text |}.

Definition NewToolResultError (text : string) : CallToolResult :=
  {| IsError := true; Text := text |}.

(** [%q] of a key without special characters. *)
Definition quoted (s : string) : string :=
  String (Ascii.ascii_of_nat 34) (s +:+ String (Ascii.ascii_of_nat 34) EmptyString).

(** [req.GetString(key, def)]: the argument when it is present and a
    string, the default otherwise. *)
Definition GetString (req : CallToolRequest) (key def : string) : string :=
  match Arguments req !! key with
  | Some (AString s) => s
  | _ => def
  end.

(** [req.RequireString(key)]: an error when the argument is absent or is
    not a string. *)
Definition RequireString (req : CallToolRequest) (key : string)
  : string + string :=
  match Arguments req !! key with
  | Some (AString s) => inl s
  | Some _ => inr ("argument " +:+ quoted key +:+ " is not a string")
  | None => inr ("required argument " +:+ quoted key +:+ " not found")
  end.

(** Tool declarations ([mcp.NewTool] with [WithString] / [WithBoolean]). *)
Inductive PropType : Type := TString | TBoolean.

Record ToolProperty : Type :=
  { propName : string;
    propType : PropType;
    propRequired : bool;
    propDescription : string;
    propEnum : list string }.

Record Tool : Type :=
  { toolName : string;
    toolDescription : string;
    toolProperties : list ToolProperty }.

Definition declaredType (t : Tool) (name : string) : option PropType :=
  propType <$> List.find (fun p => String.eqb (propName p) name) (toolProperties t).

End mcp.

(** ** Regular expressions ([regexp.FindStringSubmatch])

    The fragment [prURLRegex] is written in: literal bytes and capturing
    groups of a greedy one-or-more repetition of a byte class.  Matching is
    leftmost-first, as in Go: the first start position that admits a match,
    and there the match a backtracking search prefers (a repetition takes as
    much as it can and gives back only when the rest fails).  The pattern's
    classes ([[^/]] and [\d]) and literals are decided by single bytes, and
    the byte [/] occurs in no multi-byte UTF-8 sequence, so matching bytes
    and matching runes select the same substrings. *)

Module regexp.

Inductive node : Type :=
| Lit (c : ascii)
| Group (cls : ascii -> bool).

Definition Regexp : Type := list node.

Fixpoint lits (s : string) : Regexp :=
  match s with
  | EmptyString => []
  | String c rest => Lit c :: lits rest
  end.

(** [re.NumSubexp()]: the number of groups. *)
Fixpoint NumSubexp (re : Regexp) : nat :=
  match re with
  | [] => 0%nat
  | Lit _ :: re' => NumSubexp re'
  | Group _ :: re' => S (NumSubexp re')
  end.

(** The result of matching a suffix of the pattern: the text it consumed
    and the texts of its groups. *)
Definition found : Type := (string * list string)%type.

(** [cls+] followed by the continuation [k]; longer repetitions first. *)
Fixpoint plus (cls : ascii -> bool) (k : string -> option found) (s : string)
  : option (string * found) :=
  match s with
  | EmptyString => None
  | String c rest =>
      if cls c then
        match plus cls k rest with
        | Some (cap, r) => Some (String c cap, r)
        | None =>
            match k rest with
            | Some r => Some (String c EmptyString, r)
            | None => None
            end
        end
      else None
  end.

Fixpoint matchHere (re : Regexp) (s : string) : option found :=
  match re with
  | [] => Some (EmptyString, [])
  | Lit c :: re' =>
      match s with
      | EmptyString => None
      | String d rest =>
          if Ascii.eqb c d then
            match matchHere re' rest with
            | Some (text, caps) => Some (String d text, caps)
            | None => None
            end
          else None
      end
  | Group cls :: re' =>
      match plus cls (matchHere re') s with
      | Some (cap, (text, caps)) => Some (cap +:+ text, cap :: caps)
      | None => None
      end
  end.

(** The leftmost match, as the slice [match, group1, ...]; [nil] when
    there is none. *)
Fixpoint FindStringSubmatch (re : Regexp) (s : string) : list string :=
  match matchHere re s with
  | Some (text, caps) => text :: caps
  | None =>
      match s with
      | EmptyString => []
      | String _ rest => FindStringSubmatch re rest
      end
  end.

End regexp.

(** ** [strconv.Atoi] on a 64-bit target *)

Module strconv.

Definition maxInt : Z := 2 ^ 63 - 1.
Definition minInt : Z := - 2 ^ 63.

Definition isDigit (c : ascii) : bool :=
  let n := Z.of_nat (Ascii.nat_of_ascii c) in (48 <=? n) && (n <=? 57).

Definition digitVal (c : ascii) : Z := Z.of_nat (Ascii.nat_of_ascii c) - 48.

(** The value of a run of decimal digits; [None] at a byte that is not a
    digit. *)
Fixpoint digits (acc : Z) (s : string) : option Z :=
  match s with
  | EmptyString => Some acc
  | String c rest =>
      if isDigit c then digits (10 * acc + digitVal c) rest else None
  end.

(** [Atoi]: an optional sign, at least one digit, nothing else, and the
    value within the range of [int]; the error is left out, as
    [parsePRURL] drops it. *)
Definition sign (s : string) : bool * string :=
  match s with
  | String "-"%char rest => (true, rest)
  | String "+"%char rest => (false, rest)
  | _ => (false, s)
  end.

Definition Atoi (s : string) : option Z :=
  let '(neg, body) := sign s in
  match body with
  | EmptyString => None
  | _ =>
      match digits 0 body with
      | None => None
      | Some v =>
          let n := if neg then - v else v in
          if (minInt <=? n) && (n <=? maxInt) then Some n else None
      end
  end.

End strconv.

(** ** [parsePRURL] *)

Definition GoError : Type := string.

Definition notSlash (c : ascii) : bool := negb (Ascii.eqb c Str.slash).

(** [https://github\.com/([^/]+)/([^/]+)/pull/(\d+)] *)
Definition prURLRegex : regexp.Regexp :=
  (regexp.lits "https://github.com/"
     ++ [regexp.Group notSlash; regexp.Lit "/"%char; regexp.Group notSlash]
     ++ regexp.lits "/pull/"
     ++ [regexp.Group strconv.isDigit])%list.

Definition errInvalidFormat : GoError :=
  "invalid PR URL format. Expected: .../owner/repo/pull/123".

Definition errInvalidNumber (digits : string) : GoError :=
  "invalid PR number: " +:+ digits.

Definition parsePRURL (url : string) : (string * string * Z) + GoError :=
  let matches := regexp.FindStringSubmatch prURLRegex url in
  if negb (Nat.eqb (List.length matches) 4) then inr errInvalidFormat
  else
    let owner := nth 1 matches EmptyString in
    let repo := nth 2 matches EmptyString in
    match strconv.Atoi (nth 3 matches EmptyString) with
    | None => inr (errInvalidNumber (nth 3 matches EmptyString))
    | Some number => inl (owner, repo, number)
    end.

(** ** The two remote services

    [github.Client.Search.Issues] and [githubv4.Client.Query] are the
    service's collaborators: functions from the request to what the call
    returns.  An [error] is its message, the text [%v] prints. *)

Module github.

Record ListOptions : Type := { PerPage : Z }.

Record SearchOptions : Type :=
  { Sort : string; Order : string; listOptions : ListOptions }.

(** [GetState], [GetTitle], [GetHTMLURL] of an issue. *)
Record Issue : Type :=
  { GetState : string; GetTitle : string; GetHTMLURL : string }.

Record IssuesSearchResult : Type :=
  { GetTotal : Z; Issues : list Issue }.

Record Response : Type := { StatusCode : Z; Status : string }.

End github.

Module githubv4.

(** [githubv4.Int] is [int32]: the conversion from [int] wraps. *)
Definition Int (n : Z) : Z := (n + 2 ^ 31) mod 2 ^ 32 - 2 ^ 31.

End githubv4.

(** The nodes of [prCommentsQuery]; [URL] is the permalink as
    [URL.String()] renders it. *)
Record Comment : Type :=
  { AuthorLogin : string;
    Body : string;
    Path : string;
    Line : Z;
    URL : string;
    CreatedAt : string }.

Record ReviewThread : Type :=
  { IsResolved : bool;
    Comments : list Comment }.

(** The [variables] of the GraphQL query. *)
Record queryVariables : Type :=
  { varOwner : string; varRepo : string; varPrNumber : Z }.

Record githubService : Type :=
  { restSearchIssues :
      string -> github.SearchOptions
      -> (github.IssuesSearchResult * github.Response) + GoError;
    graphqlQuery : queryVariables -> list ReviewThread + GoError }.

(** What a handler returns: the tool result and the Go [error]. *)
Definition HandlerResult : Type := (mcp.CallToolResult * option GoError)%type.

Definition httpStatusOK : Z := 200.

(** ** [listPullRequestsHandler] *)

Definition searchQuery (state : string) : string :=
  let queryParts := ["is:pr"; "author:@me"] in
  let queryParts :=
    if String.eqb state "open" || String.eqb state "closed"
    then (queryParts ++ ["is:" +:+ state])%list
    else queryParts in
  Str.join " " queryParts.

Definition searchOpts : github.SearchOptions :=
  {| github.Sort := "updated";
     github.Order := "desc";
     github.listOptions := {| github.PerPage := 15 |} |}.

Definition issueLine (issue : github.Issue) : string :=
  "- [State: " +:+ github.GetState issue +:+ "] " +:+ github.GetTitle issue
    +:+ nl +:+ "  " +:+ github.GetHTMLURL issue +:+ nl.

Definition listPullRequestsHandler (s : githubService) (req : mcp.CallToolRequest)
  : HandlerResult :=
  let state := mcp.GetString req "state" "open" in
  let query := searchQuery state in
  match restSearchIssues s query searchOpts with
  | inr err =>
      (mcp.NewToolResultError ("Error searching GitHub: " +:+ err), None)
  | inl (result, resp) =>
      if negb (github.StatusCode resp =? httpStatusOK) then
        (mcp.NewToolResultError
           ("GitHub API returned non-200 status: " +:+ github.Status resp), None)
      else if github.GetTotal result =? 0 then
        (mcp.NewToolResultText ("No pull requests found with state: " +:+ state), None)
      else
        let responseBuilder :=
          "Found " +:+ Str.fmt_d (github.GetTotal result)
            +:+ " pull requests (state: " +:+ state +:+ "):" +:+ nl +:+ nl in
        let responseBuilder :=
          fold_left (fun b issue => b +:+ issueLine issue)
            (github.Issues result) responseBuilder in
        (mcp.NewToolResultText responseBuilder, None)
  end.

(** ** [getUnresolvedCommentsHandler] *)

(** What the inner loop writes for one comment. *)
Definition unresolvedCommentText (comment : Comment) : string :=
  let fullBody := Body comment in
  if (200 <? String.length fullBody)%nat then
    let lines := Str.split Str.lf fullBody in
    if (3 <? List.length lines)%nat then
      let preview := Str.join nl (firstn 3 lines) in
      "  - @" +:+ AuthorLogin comment +:+ ": " +:+ preview +:+ nl
        +:+ "… +" +:+ Str.fmt_d (Z.of_nat (List.length lines) - 3)
        +:+ " lines (ctrl+o to expand)" +:+ nl
    else
      "  - @" +:+ AuthorLogin comment +:+ ": " +:+ fullBody +:+ nl
  else
    "  - @" +:+ AuthorLogin comment +:+ ": " +:+ fullBody +:+ nl.

(** The loop state: the text in [responseBuilder] and the counter. *)
Definition loopState : Type := (string * Z)%type.

(** One iteration of the loop over the review threads. *)
Definition unresolvedStep (st : loopState) (thread : ReviewThread) : loopState :=
  let '(responseBuilder, unresolvedCount) := st in
  if negb (IsResolved thread) then
    let unresolvedCount := unresolvedCount + 1 in
    match Comments thread with
    | firstComment :: _ =>
        let responseBuilder :=
          responseBuilder +:+ "Unresolved Thread on: " +:+ Path firstComment
            +:+ " (Line " +:+ Str.fmt_d (Line firstComment) +:+ ")" +:+ nl in
        let responseBuilder :=
          fold_left (fun b comment => b +:+ unresolvedCommentText comment)
            (Comments thread) responseBuilder in
        let responseBuilder :=
          responseBuilder +:+ "  (Thread Link: " +:+ URL firstComment +:+ ")"
            +:+ nl +:+ nl in
        (responseBuilder, unresolvedCount)
    | [] => (responseBuilder, unresolvedCount)
    end
  else (responseBuilder, unresolvedCount).

Definition unresolvedLoop (threads : list ReviewThread) : loopState :=
  fold_left unresolvedStep threads (EmptyString, 0).

(** The formatting pass, after a successful fetch. *)
Definition formatUnresolved (threads : list ReviewThread) : mcp.CallToolResult :=
  let '(responseBuilder, unresolvedCount) := unresolvedLoop threads in
  if unresolvedCount =? 0 then
    mcp.NewToolResultText "No unresolved comments found on that PR."
  else
    mcp.NewToolResultText
      ("Found " +:+ Str.fmt_d unresolvedCount +:+ " unresolved comment threads:"
         +:+ nl +:+ nl +:+ responseBuilder).

Definition getUnresolvedCommentsHandler (s : githubService) (req : mcp.CallToolRequest)
  : HandlerResult :=
  match mcp.RequireString req "pull_request_url" with
  | inr _ =>
      (mcp.NewToolResultError "Missing required argument: pull_request_url", None)
  | inl prURL =>
      match parsePRURL prURL with
      | inr err => (mcp.NewToolResultError ("Invalid PR URL: " +:+ err), None)
      | inl (owner, repo, prNumber) =>
          let variables :=
            {| varOwner := owner; varRepo := repo;
               varPrNumber := githubv4.Int prNumber |} in
          match graphqlQuery s variables with
          | inr err =>
              (mcp.NewToolResultError ("GitHub GraphQL query failed: " +:+ err), None)
          | inl threads => (formatUnresolved threads, None)
          end
      end
  end.

(** ** [getFullCommentsHandler] *)

(** The inner loop: every comment in full, replies after a separator. *)
Fixpoint fullCommentsText (i : nat) (comments : list Comment) (b : string) : string :=
  match comments with
  | [] => b
  | comment :: rest =>
      let b := if (0 <? i)%nat then b +:+ nl +:+ "--- Reply ---" +:+ nl else b in
      let b := b +:+ "@" +:+ AuthorLogin comment +:+ ":" +:+ nl
                 +:+ Body comment +:+ nl in
      fullCommentsText (S i) rest b
  end.

Definition fullStep (unresolvedOnly : bool) (st : loopState) (thread : ReviewThread)
  : loopState :=
  let '(responseBuilder, threadCount) := st in
  let isResolved := IsResolved thread in
  if unresolvedOnly && isResolved then (responseBuilder, threadCount)
  else
    let threadCount := threadCount + 1 in
    match Comments thread with
    | firstComment :: _ =>
        let status := if negb isResolved then "Unresolved" else "Resolved" in
        let responseBuilder :=
          responseBuilder +:+ "=== " +:+ status +:+ " Thread on: "
            +:+ Path firstComment +:+ " (Line " +:+ Str.fmt_d (Line firstComment)
            +:+ ") ===" +:+ nl in
        let responseBuilder :=
          fullCommentsText 0 (Comments thread) responseBuilder in
        let responseBuilder :=
          responseBuilder +:+ nl +:+ "(Thread Link: " +:+ URL firstComment +:+ ")"
            +:+ nl +:+ nl in
        (responseBuilder, threadCount)
    | [] => (responseBuilder, threadCount)
    end.

Definition fullLoop (unresolvedOnly : bool) (threads : list ReviewThread) : loopState :=
  fold_left (fullStep unresolvedOnly) threads (EmptyString, 0).

Definition formatFull (unresolvedOnly : bool) (threads : list ReviewThread)
  : mcp.CallToolResult :=
  let '(responseBuilder, threadCount) := fullLoop unresolvedOnly threads in
  if threadCount =? 0 then
    if unresolvedOnly
    then mcp.NewToolResultText "No unresolved comments found on that PR."
    else mcp.NewToolResultText "No comments found on that PR."
  else
    let filterText := if unresolvedOnly then " unresolved" else EmptyString in
    mcp.NewToolResultText
      ("Found " +:+ Str.fmt_d threadCount +:+ filterText +:+ " comment threads:"
         +:+ nl +:+ nl +:+ responseBuilder).

(** [unresolvedOnly], as the handler computes it from the request. *)
Definition unresolvedOnlyOf (req : mcp.CallToolRequest) : bool :=
  let unresolvedOnlyStr := mcp.GetString req "unresolved_only" "false" in
  String.eqb unresolvedOnlyStr "true".

Definition getFullCommentsHandler (s : githubService) (req : mcp.CallToolRequest)
  : HandlerResult :=
  match mcp.RequireString req "pull_request_url" with
  | inr _ =>
      (mcp.NewToolResultError "Missing required argument: pull_request_url", None)
  | inl prURL =>
      let unresolvedOnly := unresolvedOnlyOf req in
      match parsePRURL prURL with
      | inr err => (mcp.NewToolResultError ("Invalid PR URL: " +:+ err), None)
      | inl (owner, repo, prNumber) =>
          let variables :=
            {| varOwner := owner; varRepo := repo;
               varPrNumber := githubv4.Int prNumber |} in
          match graphqlQuery s variables with
          | inr err =>
              (mcp.NewToolResultError ("GitHub GraphQL query failed: " +:+ err), None)
          | inl threads => (formatFull unresolvedOnly threads, None)
          end
      end
  end.

(** ** The tool declarations of [main] *)

Definition listPRsTool : mcp.Tool :=
  {| mcp.toolName := "list_pull_requests";
     mcp.toolDescription := "Lists pull requests authored by the authenticated user.";
     mcp.toolProperties :=
       [ {| mcp.propName := "state";
            mcp.propType := mcp.TString;
            mcp.propRequired := false;
            mcp.propDescription :=
              "The state of the pull requests to list (open, closed, or all). Defaults to 'open'.";
            mcp.propEnum := ["open"; "closed"; "all"] |} ] |}.

Definition getUnresolvedCommentsTool : mcp.Tool :=
  {| mcp.toolName := "get_unresolved_comments";
     mcp.toolDescription :=
       "Gets all unresolved review comments from a specific GitHub pull request.";
     mcp.toolProperties :=
       [ {| mcp.propName := "pull_request_url";
            mcp.propType := mcp.TString;
            mcp.propRequired := true;
            mcp.propDescription :=
              "The full URL of the pull request (e.g., https://github.com/owner/repo/pull/123)";
            mcp.propEnum := [] |} ] |}.

Definition getFullCommentsTool : mcp.Tool :=
  {| mcp.toolName := "get_full_comments";
     mcp.toolDescription :=
       "Gets all review comments from a specific GitHub pull request with full content (no truncation).";
     mcp.toolProperties :=
       [ {| mcp.propName := "pull_request_url";
            mcp.propType := mcp.TString;
            mcp.propRequired := true;
            mcp.propDescription :=
              "The full URL of the pull request (e.g., https://github.com/owner/repo/pull/123)";
            mcp.propEnum := [] |};
         {| mcp.propName := "unresolved_only";
            mcp.propType := mcp.TBoolean;
            mcp.propRequired := false;
            mcp.propDescription :=
              "If true, only show unresolved comments. If false, show all comments. Defaults to false.";
            mcp.propEnum := [] |} ] |}.

(** ** Startup: [validateCredentials], [newGithubService], [main] *)

Definition httpStatusUnauthorized : Z := 401.

(** The call [client.Users.Get] for the authenticated user has been made;
    its response or error is the argument. *)
Definition validateCredentials (usersGet : github.Response + GoError)
  : option GoError :=
  match usersGet with
  | inr err => Some ("authentication test failed: " +:+ err)
  | inl resp =>
      if github.StatusCode resp =? httpStatusUnauthorized then
        Some "invalid or expired token"
      else if negb (github.StatusCode resp =? httpStatusOK) then
        Some ("unexpected API response: " +:+ github.Status resp)
      else None
  end.

(** The remote API as clients authorised with a token see it. *)
Record GitHubAPI : Type :=
  { apiUsersGet : string -> github.Response + GoError;
    apiSearchIssues :
      string -> string -> github.SearchOptions
      -> (github.IssuesSearchResult * github.Response) + GoError;
    apiQuery : string -> queryVariables -> list ReviewThread + GoError }.

(** [os.Getenv]: the empty string for a variable that is not set. *)
Definition Getenv (environ : gmap string string) (key : string) : string :=
  default EmptyString (environ !! key).

Definition newGithubService (environ : gmap string string) (api : GitHubAPI)
  : githubService + GoError :=
  let token := Getenv environ "GITHUB_TOKEN" in
  if String.eqb token EmptyString then
    inr "GITHUB_TOKEN environment variable is not set"
  else
    match validateCredentials (apiUsersGet api token) with
    | Some err => inr ("GitHub authentication failed: " +:+ err)
    | None =>
        inl {| restSearchIssues := apiSearchIssues api token;
               graphqlQuery := apiQuery api token |}
    end.

(** The server of [mcp-go]: its tools are kept by name. *)
Record MCPServer : Type :=
  { serverName : string;
    serverVersion : string;
    serverTools : gmap string (mcp.Tool * (mcp.CallToolRequest -> HandlerResult)) }.

Definition NewMCPServer (name version : string) : MCPServer :=
  {| serverName := name; serverVersion := version; serverTools := ∅ |}.

Definition AddTool (srv : MCPServer) (tool : mcp.Tool)
    (handler : mcp.CallToolRequest -> HandlerResult) : MCPServer :=
  {| serverName := serverName srv;
     serverVersion := serverVersion srv;
     serverTools := <[mcp.toolName tool := (tool, handler)]> (serverTools srv) |}.

(** How the process ends: [log.Fatalf] or the return of [main]. *)
Inductive Exit : Type := Fatal | Returned.

(** [main], with the lines it logs; [ServeStdio] is the serving loop of the
    library, which returns when the transport closes or fails. *)
Definition main (environ : gmap string string) (api : GitHubAPI)
    (ServeStdio : MCPServer -> option GoError) : list string * Exit :=
  let logged := ["Starting GitHub MCP Server..."] in
  match newGithubService environ api with
  | inr err =>
      ((logged ++ ["Failed to create GitHub service: " +:+ err])%list, Fatal)
  | inl ghService =>
      let logged := (logged ++ ["GitHub service initialized successfully."])%list in
      let s := NewMCPServer "GitHub MCP" "1.0.0" in
      let s := AddTool s listPRsTool (listPullRequestsHandler ghService) in
      let s := AddTool s getUnresolvedCommentsTool
                 (getUnresolvedCommentsHandler ghService) in
      let s := AddTool s getFullCommentsTool (getFullCommentsHandler ghService) in
      let logged :=
        (logged ++ ["MCP server running. Waiting for requests from Claude CLI..."])%list in
      match ServeStdio s with
      | Some err => ((logged ++ ["Server failed to run: " +:+ err])%list, Fatal)
      | None => (logged, Returned)
      end
  end.

(** ** Sample data *)

Module Sample.

Definition args (l : list (string * mcp.ArgValue)) : mcp.CallToolRequest :=
  {| mcp.Arguments := list_to_map l |}.

Definition comment (login body : string) : Comment :=
  {| AuthorLogin := login; Body := body; Path := "main.go"; Line := 7;
     URL := "https://github.com/o/r/pull/1#discussion_r1";
     CreatedAt := "2024-01-01T00:00:00Z" |}.

Definition issue (n : string) : github.Issue :=
  {| github.GetState := "open"; github.GetTitle := "PR " +:+ n;
     github.GetHTMLURL := "https://github.com/o/r/pull/" +:+ n |}.

(** A service whose search answers with [total] matches and the given
    page, and whose query answers with the given threads. *)
Definition service (total : Z) (page : list github.Issue)
    (threads : list ReviewThread) : githubService :=
  {| restSearchIssues := fun _ _ =>
       inl ({| github.GetTotal := total; github.Issues := page |},
            {| github.StatusCode := 200; github.Status := "200 OK" |});
     graphqlQuery := fun _ => inl threads |}.

Definition prURL : string := "https://github.com/o/r/pull/1".

(** [n] bytes [x]. *)
Fixpoint xs (n : nat) : string :=
  match n with
  | O => EmptyString
  | S m => String "x" (xs m)
  end.

(** [k] lines of 49 bytes, each ended by a newline, before [last]. *)
Fixpoint linesThen (k : nat) (last : string) : string :=
  match k with
  | O => last
  | S m => xs 49 +:+ nl +:+ linesThen m last
  end.

(** 500 bytes in 10 lines. *)
Definition longBody : string := linesThen 9 (xs 50).

(** [n] times the two-byte character [é]. *)
Fixpoint accents (n : nat) : string :=
  match n with
  | O => EmptyString
  | S m => "é" +:+ accents m
  end.

(** 107 characters in 211 bytes: 4 lines of 26 accented letters. *)
Definition accentedBody : string :=
  accents 26 +:+ nl +:+ accents 26 +:+ nl +:+ accents 26 +:+ nl +:+ accents 26.

End Sample.

(** ** Derived notions used in the statements *)

(** The concatenation of a list of texts. *)
Fixpoint concatText (l : list string) : string :=
  match l with
  | [] => EmptyString
  | x :: rest => x +:+ concatText rest
  end.

(** What one iteration appends to an empty builder, and by how much it
    moves the counter. *)
Definition unresolvedBlock (t : ReviewThread) : string :=
  fst (unresolvedStep (EmptyString, 0) t).

Definition unresolvedCounted (t : ReviewThread) : Z :=
  snd (unresolvedStep (EmptyString, 0) t).

Definition fullBlock (unresolvedOnly : bool) (t : ReviewThread) : string :=
  fst (fullStep unresolvedOnly (EmptyString, 0) t).

Definition fullCounted (unresolvedOnly : bool) (t : ReviewThread) : Z :=
  snd (fullStep unresolvedOnly (EmptyString, 0) t).

Definition sumZ (l : list Z) : Z := fold_right Z.add 0 l.

(** What the full formatter writes for one comment, and before a reply. *)
Definition fullCommentEntry (comment : Comment) : string :=
  "@" +:+ AuthorLogin comment +:+ ":" +:+ nl +:+ Body comment +:+ nl.

Definition replySeparator : string := nl +:+ "--- Reply ---" +:+ nl.

(** The threads that are not resolved, in their order. *)
Definition unresolvedThreads (threads : list ReviewThread) : list ReviewThread :=
  List.filter (fun t => negb (IsResolved t)) threads.

(** The texts a pattern matches, with the texts of its groups: the language
    the matcher is checked against. *)
Inductive Matches : regexp.Regexp -> string -> list string -> Prop :=
| Matches_nil : Matches [] EmptyString []
| Matches_lit c re text caps :
    Matches re text caps ->
    Matches (regexp.Lit c :: re) (String c text) caps
| Matches_group cls re cap text caps :
    cap <> EmptyString -> Str.forallb cls cap = true ->
    Matches re text caps ->
    Matches (regexp.Group cls :: re) (cap +:+ text) (cap :: caps).

(** The number a run of decimal digits denotes. *)
Definition decimalValue (s : string) : Z :=
  match strconv.digits 0 s with
  | Some v => v
  | None => 0
  end.

(** Owner and repository are non-empty and free of [/]; the number is a
    non-empty run of digits. *)
Definition wellFormedPR (owner repo digits : string) : Prop :=
  owner <> EmptyString /\ Str.forallb notSlash owner = true
  /\ repo <> EmptyString /\ Str.forallb notSlash repo = true
  /\ digits <> EmptyString /\ Str.forallb strconv.isDigit digits = true.

Definition prURLText (owner repo digits : string) : string :=
  "https://github.com/" +:+ owner +:+ "/" +:+ repo +:+ "/pull/" +:+ digits.

(** The input has a substring the pattern matches. *)
Definition containsPRURL (url : string) : Prop :=
  exists pre owner repo digits post,
    wellFormedPR owner repo digits
    /\ url = pre +:+ prURLText owner repo digits +:+ post.

(** The input begins with a text the pattern matches. *)
Definition startsPRURL (s : string) : Prop :=
  exists owner repo digits post,
    wellFormedPR owner repo digits /\ s = prURLText owner repo digits +:+ post.

(** The length of a text in characters, in the words of the specification:
    the code points of its UTF-8 encoding, one for every byte that is not a
    continuation byte [10xxxxxx]. *)
Definition isContinuationByte (c : ascii) : bool :=
  let n := Ascii.nat_of_ascii c in (128 <=? n)%nat && (n <? 192)%nat.

Fixpoint utf8Chars (s : string) : nat :=
  match s with
  | EmptyString => 0%nat
  | String c rest =>
      ((if isContinuationByte c then 0 else 1) + utf8Chars rest)%nat
  end.

(** The shape [scheme://host/owner/repo/pull/<digits>] in the words of the
    specification: any scheme and any host. *)
Definition specShape (url : string) : Prop :=
  exists scheme host owner repo digits,
    scheme <> EmptyString
    /\ host <> EmptyString /\ Str.forallb notSlash host = true
    /\ wellFormedPR owner repo digits
    /\ url = scheme +:+ "://" +:+ host +:+ "/" +:+ owner +:+ "/" +:+ repo
              +:+ "/pull/" +:+ digits.

(** * Facts *)

(** ** Byte strings *)

#[local] Arguments String.append !_ _ : simpl nomatch.

Section StringFacts.

Lemma sapp_nil_r (s : string) : s +:+ EmptyString = s.
Proof. induction s as [|c s IH]; simpl; [reflexivity | now rewrite IH]. Qed.

Lemma sapp_assoc (a b c : string) : (a +:+ b) +:+ c = a +:+ (b +:+ c).
Proof. induction a as [|x a IH]; simpl; [reflexivity | now rewrite IH]. Qed.

Lemma split_not_nil sep s : Str.split sep s <> [].
Proof.
  destruct s as [|c s]; simpl; [discriminate|].
  destruct (Ascii.eqb c sep); [discriminate|].
  destruct (Str.split sep s); discriminate.
Qed.

(** [strings.Split] returns one piece more than there are separators. *)
Lemma split_length sep s :
  List.length (Str.split sep s) = S (Str.count sep s).
Proof.
  induction s as [|c s IH]; simpl; [reflexivity|].
  destruct (Ascii.eqb c sep); simpl; [now rewrite IH|].
  destruct (Str.split sep s) as [|p ps] eqn:E; simpl in *; [discriminate | exact IH].
Qed.

(** Joining the pieces with the separator gives the text back. *)
Lemma join_split sep s :
  Str.join (String sep EmptyString) (Str.split sep s) = s.
Proof.
  induction s as [|c s IH]; simpl; [reflexivity|].
  destruct (Ascii.eqb_spec c sep) as [->|Hne].
  - pose proof (split_not_nil sep s) as Hnn.
    destruct (Str.split sep s) as [|p ps] eqn:E; [contradiction|].
    simpl. simpl in IH. now rewrite IH.
  - destruct (Str.split sep s) as [|p ps] eqn:E.
    + now destruct (split_not_nil sep s).
    + destruct ps as [|q qs]; simpl in *; now rewrite <- IH.
Qed.

Lemma fold_append {A} (f : A -> string) (l : list A) (b : string) :
  fold_left (fun b x => b +:+ f x) l b = b +:+ concatText (map f l).
Proof.
  revert b; induction l as [|x l IH]; intros b; simpl.
  - now rewrite sapp_nil_r.
  - now rewrite IH, sapp_assoc.
Qed.

Lemma concatText_app (l1 l2 : list string) :
  concatText (l1 ++ l2) = concatText l1 +:+ concatText l2.
Proof.
  induction l1 as [|x l1 IH]; simpl; [reflexivity|].
  now rewrite IH, sapp_assoc.
Qed.

End StringFacts.


(** Bring a text built with [+:+] to its right-nested form. *)
Ltac str_norm :=
  repeat first [progress simpl | rewrite sapp_assoc | rewrite sapp_nil_r].

(** ** The two loops over the review threads

    The builder only grows and the counter only moves by the thread's own
    contribution, so a loop is the concatenation of the blocks and the sum
    of the counts. *)

Section Loops.

Lemma fullCommentsText_shift i comments b :
  fullCommentsText i comments b = b +:+ fullCommentsText i comments EmptyString.
Proof.
  revert i b; induction comments as [|c rest IH]; intros i b; simpl.
  - now rewrite sapp_nil_r.
  - etransitivity; [apply IH|].
    match goal with
    | |- _ = _ +:+ fullCommentsText _ _ ?b2 => rewrite (IH (S i) b2)
    end.
    destruct (0 <? i)%nat; now str_norm.
Qed.

Lemma unresolvedStep_eq b n t :
  unresolvedStep (b, n) t = (b +:+ unresolvedBlock t, n + unresolvedCounted t).
Proof.
  unfold unresolvedBlock, unresolvedCounted, unresolvedStep.
  destruct (IsResolved t); simpl.
  - now rewrite sapp_nil_r, Z.add_0_r.
  - destruct (Comments t) as [|c cs]; simpl.
    + now rewrite sapp_nil_r.
    + rewrite !fold_append. now str_norm.
Qed.

Lemma fullStep_eq uo b n t :
  fullStep uo (b, n) t = (b +:+ fullBlock uo t, n + fullCounted uo t).
Proof.
  unfold fullBlock, fullCounted, fullStep.
  destruct (uo && IsResolved t); simpl.
  - now rewrite sapp_nil_r, Z.add_0_r.
  - destruct (Comments t) as [|c cs]; simpl.
    + now rewrite sapp_nil_r.
    + match goal with
      | |- (fullCommentsText _ _ ?b1 +:+ _, _) = _ =>
          rewrite (fullCommentsText_shift 1 cs b1)
      end.
      match goal with
      | |- _ = (_ +:+ fullCommentsText _ _ ?b2 +:+ _, _) =>
          rewrite (fullCommentsText_shift 1 cs b2)
      end.
      now str_norm.
Qed.

Lemma sumZ_app l1 l2 : sumZ (l1 ++ l2) = sumZ l1 + sumZ l2.
Proof. induction l1 as [|x l1 IH]; simpl; [reflexivity | rewrite IH; lia]. Qed.

Lemma unresolved_fold threads b n :
  fold_left unresolvedStep threads (b, n)
  = (b +:+ concatText (map unresolvedBlock threads),
     n + sumZ (map unresolvedCounted threads)).
Proof.
  revert b n; induction threads as [|t rest IH]; intros b n.
  - simpl. now rewrite sapp_nil_r, Z.add_0_r.
  - cbn [fold_left map concatText sumZ fold_right].
    rewrite unresolvedStep_eq, IH, sapp_assoc. f_equal. unfold sumZ. lia.
Qed.

Lemma full_fold uo threads b n :
  fold_left (fullStep uo) threads (b, n)
  = (b +:+ concatText (map (fullBlock uo) threads),
     n + sumZ (map (fullCounted uo) threads)).
Proof.
  revert b n; induction threads as [|t rest IH]; intros b n.
  - simpl. now rewrite sapp_nil_r, Z.add_0_r.
  - cbn [fold_left map concatText sumZ fold_right].
    rewrite fullStep_eq, IH, sapp_assoc. f_equal. unfold sumZ. lia.
Qed.

Lemma unresolvedLoop_eq threads :
  unresolvedLoop threads
  = (concatText (map unresolvedBlock threads),
     sumZ (map unresolvedCounted threads)).
Proof. unfold unresolvedLoop. now rewrite unresolved_fold. Qed.

Lemma fullLoop_eq uo threads :
  fullLoop uo threads
  = (concatText (map (fullBlock uo) threads),
     sumZ (map (fullCounted uo) threads)).
Proof. unfold fullLoop. now rewrite full_fold. Qed.

Lemma unresolvedCounted_spec t :
  unresolvedCounted t = if IsResolved t then 0 else 1.
Proof.
  unfold unresolvedCounted, unresolvedStep.
  destruct (IsResolved t); simpl; [reflexivity|].
  now destruct (Comments t).
Qed.

Lemma fullCounted_spec uo t :
  fullCounted uo t = if uo && IsResolved t then 0 else 1.
Proof.
  unfold fullCounted, fullStep.
  destruct (uo && IsResolved t); simpl; [reflexivity|].
  now destruct (Comments t).
Qed.

Lemma unresolvedBlock_empty t : Comments t = [] -> unresolvedBlock t = EmptyString.
Proof.
  intros H. unfold unresolvedBlock, unresolvedStep. rewrite H.
  now destruct (IsResolved t).
Qed.

Lemma fullBlock_empty uo t : Comments t = [] -> fullBlock uo t = EmptyString.
Proof.
  intros H. unfold fullBlock, fullStep. rewrite H.
  now destruct (uo && IsResolved t).
Qed.

Lemma unresolvedBlock_resolved t : IsResolved t = true -> unresolvedBlock t = EmptyString.
Proof. intros H. unfold unresolvedBlock, unresolvedStep. now rewrite H. Qed.

Lemma fullBlock_filtered t : IsResolved t = true -> fullBlock true t = EmptyString.
Proof. intros H. unfold fullBlock, fullStep. now rewrite H. Qed.

Lemma sumZ_unresolved_nonneg threads : 0 <= sumZ (map unresolvedCounted threads).
Proof.
  induction threads as [|t rest IH]; simpl; [lia|].
  rewrite unresolvedCounted_spec. destruct (IsResolved t); lia.
Qed.

Lemma sumZ_full_nonneg uo threads : 0 <= sumZ (map (fullCounted uo) threads).
Proof.
  induction threads as [|t rest IH]; simpl; [lia|].
  rewrite fullCounted_spec. destruct (uo && IsResolved t); lia.
Qed.

(** Taking one thread out of the list: the texts and counts of the
    others stay as they are. *)
Lemma unresolvedLoop_insert pre t post :
  unresolvedLoop (pre ++ t :: post)
  = (concatText (map unresolvedBlock pre) +:+ unresolvedBlock t
       +:+ concatText (map unresolvedBlock post),
     snd (unresolvedLoop (pre ++ post)) + unresolvedCounted t).
Proof.
  rewrite !unresolvedLoop_eq, !map_app, concatText_app, !sumZ_app. simpl.
  f_equal. lia.
Qed.

Lemma fullLoop_insert uo pre t post :
  fullLoop uo (pre ++ t :: post)
  = (concatText (map (fullBlock uo) pre) +:+ fullBlock uo t
       +:+ concatText (map (fullBlock uo) post),
     snd (fullLoop uo (pre ++ post)) + fullCounted uo t).
Proof.
  rewrite !fullLoop_eq, !map_app, concatText_app, !sumZ_app. simpl.
  f_equal. lia.
Qed.

Lemma unresolvedLoop_text_app pre post :
  fst (unresolvedLoop (pre ++ post))
  = concatText (map unresolvedBlock pre) +:+ concatText (map unresolvedBlock post).
Proof. now rewrite unresolvedLoop_eq, map_app, concatText_app. Qed.

Lemma fullLoop_text_app uo pre post :
  fst (fullLoop uo (pre ++ post))
  = concatText (map (fullBlock uo) pre) +:+ concatText (map (fullBlock uo) post).
Proof. now rewrite fullLoop_eq, map_app, concatText_app. Qed.

End Loops.

(** ** The formatting passes in terms of the loops *)

Section Formatting.

Lemma formatUnresolved_eq threads :
  formatUnresolved threads
  = if snd (unresolvedLoop threads) =? 0
    then mcp.NewToolResultText "No unresolved comments found on that PR."
    else mcp.NewToolResultText
           ("Found " +:+ Str.fmt_d (snd (unresolvedLoop threads))
              +:+ " unresolved comment threads:" +:+ nl +:+ nl
              +:+ fst (unresolvedLoop threads)).
Proof. unfold formatUnresolved. now destruct (unresolvedLoop threads). Qed.

Lemma formatFull_eq uo threads :
  formatFull uo threads
  = if snd (fullLoop uo threads) =? 0
    then mcp.NewToolResultText
           (if uo then "No unresolved comments found on that PR."
            else "No comments found on that PR.")
    else mcp.NewToolResultText
           ("Found " +:+ Str.fmt_d (snd (fullLoop uo threads))
              +:+ (if uo then " unresolved" else EmptyString)
              +:+ " comment threads:" +:+ nl +:+ nl
              +:+ fst (fullLoop uo threads)).
Proof.
  unfold formatFull. destruct (fullLoop uo threads) as [b n]. simpl.
  destruct (n =? 0); [now destruct uo | reflexivity].
Qed.

Lemma fullBlock_shown uo t c cs :
  uo && IsResolved t = false -> Comments t = c :: cs ->
  fullBlock uo t
  = "=== " +:+ (if negb (IsResolved t) then "Unresolved" else "Resolved")
      +:+ " Thread on: " +:+ Path c +:+ " (Line " +:+ Str.fmt_d (Line c)
      +:+ ") ===" +:+ nl
      +:+ fullCommentsText 0 (c :: cs) EmptyString
      +:+ nl +:+ "(Thread Link: " +:+ URL c +:+ ")" +:+ nl +:+ nl.
Proof.
  intros Hf Hc. unfold fullBlock, fullStep. rewrite Hf, Hc.
  cbn [fst]. rewrite fullCommentsText_shift.
  destruct (IsResolved t); now str_norm.
Qed.

Lemma unresolvedBlock_shown t c cs :
  IsResolved t = false -> Comments t = c :: cs ->
  unresolvedBlock t
  = "Unresolved Thread on: " +:+ Path c +:+ " (Line " +:+ Str.fmt_d (Line c)
      +:+ ")" +:+ nl
      +:+ concatText (map unresolvedCommentText (c :: cs))
      +:+ "  (Thread Link: " +:+ URL c +:+ ")" +:+ nl +:+ nl.
Proof.
  intros Hr Hc. unfold unresolvedBlock, unresolvedStep. rewrite Hr, Hc.
  cbn [fst negb]. rewrite fold_append. now str_norm.
Qed.

End Formatting.

(** ** Threads without comments, resolved threads, empty reports *)

(** C2, as the code has it: a thread whose comment list is empty adds no
    header and no block to the text of either formatter, and it is counted
    all the same whenever the formatter's resolution filter lets it through:
    by the unresolved formatter when it is unresolved, by the full formatter
    unless [unresolved_only] is set and the thread is resolved. *)
Theorem empty_thread_no_block_still_counted pre t post uo :
  Comments t = [] ->
  fst (unresolvedLoop (pre ++ t :: post)) = fst (unresolvedLoop (pre ++ post))
  /\ snd (unresolvedLoop (pre ++ t :: post))
     = snd (unresolvedLoop (pre ++ post)) + (if IsResolved t then 0 else 1)
  /\ fst (fullLoop uo (pre ++ t :: post)) = fst (fullLoop uo (pre ++ post))
  /\ snd (fullLoop uo (pre ++ t :: post))
     = snd (fullLoop uo (pre ++ post)) + (if uo && IsResolved t then 0 else 1).
Proof.
  intros Hc.
  rewrite unresolvedLoop_insert, fullLoop_insert.
  rewrite unresolvedLoop_text_app, fullLoop_text_app.
  rewrite unresolvedBlock_empty, (fullBlock_empty uo) by exact Hc.
  rewrite unresolvedCounted_spec, fullCounted_spec.
  cbn [fst snd]. repeat split; reflexivity.
Qed.

Lemma empty_thread_no_block_still_counted_witness :
  let t := {| IsResolved := false; Comments := [] |} in
  let c := Sample.comment "al" "fix this" in
  let u := {| IsResolved := false; Comments := [c] |} in
  snd (unresolvedLoop ([u] ++ t :: [u])) = snd (unresolvedLoop ([u] ++ [u])) + 1
  /\ snd (fullLoop true ([u] ++ t :: [u])) = snd (fullLoop true ([u] ++ [u])) + 1.
Proof.
  intros t c u.
  destruct (empty_thread_no_block_still_counted [u] t [u] true eq_refl)
    as (_ & H2 & _ & H4).
  split; [exact H2 | exact H4].
Defined.

(** C2, as stated, fails: one unresolved thread without comments is reported
    as one thread by both formatters, where a list without it reports none. *)
Lemma empty_thread_is_counted :
  let t := {| IsResolved := false; Comments := [] |} in
  formatUnresolved [t]
  = mcp.NewToolResultText ("Found 1 unresolved comment threads:" +:+ nl +:+ nl)
  /\ formatFull false [t]
     = mcp.NewToolResultText ("Found 1 comment threads:" +:+ nl +:+ nl)
  /\ formatUnresolved [t] <> formatUnresolved []
  /\ formatFull false [t] <> formatFull false [].
Proof. vm_compute. repeat split; discriminate. Qed.

(** C5: an unresolved thread without comments is counted in the number the
    unresolved formatter reports, and adds nothing to the text below it. *)
Theorem unresolved_empty_thread_counted_without_block pre t post :
  IsResolved t = false -> Comments t = [] ->
  unresolvedBlock t = EmptyString
  /\ formatUnresolved (pre ++ t :: post)
     = mcp.NewToolResultText
         ("Found " +:+ Str.fmt_d (snd (unresolvedLoop (pre ++ post)) + 1)
            +:+ " unresolved comment threads:" +:+ nl +:+ nl
            +:+ fst (unresolvedLoop (pre ++ post))).
Proof.
  intros Hr Hc. split; [now apply unresolvedBlock_empty|].
  rewrite formatUnresolved_eq, unresolvedLoop_insert, unresolvedLoop_text_app.
  rewrite (unresolvedBlock_empty t Hc), unresolvedCounted_spec, Hr.
  cbn [fst snd].
  pose proof (sumZ_unresolved_nonneg (pre ++ post)) as Hnn.
  rewrite unresolvedLoop_eq. cbn [snd].
  destruct (Z.eqb_spec (sumZ (map unresolvedCounted (pre ++ post)) + 1) 0); [lia|].
  reflexivity.
Qed.

Lemma unresolved_empty_thread_counted_without_block_witness :
  formatUnresolved ([] ++ {| IsResolved := false; Comments := [] |} :: [])
  = mcp.NewToolResultText ("Found 1 unresolved comment threads:" +:+ nl +:+ nl).
Proof.
  exact (proj2 (unresolved_empty_thread_counted_without_block
                  [] {| IsResolved := false; Comments := [] |} [] eq_refl eq_refl)).
Defined.

(** C6, as the code has it: a resolved thread leaves the unresolved
    formatter's text and count as they are without it; so does the full
    formatter when [unresolved_only] is set; when it is not set the full
    formatter counts the thread, and writes its block, headed
    [=== Resolved Thread on: ...], in the thread's place provided the thread
    has at least one comment. *)
Theorem resolved_thread_filtering pre t post :
  IsResolved t = true ->
  unresolvedLoop (pre ++ t :: post) = unresolvedLoop (pre ++ post)
  /\ fullLoop true (pre ++ t :: post) = fullLoop true (pre ++ post)
  /\ snd (fullLoop false (pre ++ t :: post)) = snd (fullLoop false (pre ++ post)) + 1
  /\ forall c cs, Comments t = c :: cs ->
       fst (fullLoop false (pre ++ t :: post))
       = fst (fullLoop false pre)
           +:+ ("=== Resolved Thread on: " +:+ Path c +:+ " (Line "
                  +:+ Str.fmt_d (Line c) +:+ ") ===" +:+ nl
                  +:+ fullCommentsText 0 (c :: cs) EmptyString
                  +:+ nl +:+ "(Thread Link: " +:+ URL c +:+ ")" +:+ nl +:+ nl)
           +:+ fst (fullLoop false post).
Proof.
  intros Hr. repeat split.
  - rewrite unresolvedLoop_insert, unresolvedBlock_resolved by exact Hr.
    rewrite unresolvedCounted_spec, Hr, Z.add_0_r.
    cbn [String.append]. rewrite <- unresolvedLoop_text_app.
    now destruct (unresolvedLoop (pre ++ post)).
  - rewrite fullLoop_insert, fullBlock_filtered by exact Hr.
    rewrite fullCounted_spec, Hr. cbn [andb]. rewrite Z.add_0_r.
    cbn [String.append]. rewrite <- fullLoop_text_app.
    now destruct (fullLoop true (pre ++ post)).
  - rewrite fullLoop_insert, fullCounted_spec. reflexivity.
  - intros c cs Hc. rewrite fullLoop_insert. cbn [fst].
    rewrite (fullBlock_shown false t c cs eq_refl Hc), Hr.
    rewrite !fullLoop_eq. cbn [fst negb]. reflexivity.
Qed.

Lemma resolved_thread_filtering_witness :
  let c := Sample.comment "al" "done" in
  let t := {| IsResolved := true; Comments := [c] |} in
  unresolvedLoop ([] ++ t :: []) = unresolvedLoop []
  /\ fullLoop true ([] ++ t :: []) = fullLoop true []
  /\ snd (fullLoop false ([] ++ t :: [])) = 1.
Proof.
  intros c t.
  destruct (resolved_thread_filtering [] t [] eq_refl) as (H1 & H2 & H3 & _).
  split; [exact H1 | split; [exact H2 | exact H3]].
Defined.

(** C6, as stated, fails: a resolved thread without comments is not written
    by the full formatter even when [unresolved_only] is false; the text
    under the count is empty. *)
Lemma resolved_empty_thread_not_emitted :
  let t := {| IsResolved := true; Comments := [] |} in
  fullBlock false t = EmptyString
  /\ fst (fullLoop false [t]) = EmptyString
  /\ formatFull false [t]
     = mcp.NewToolResultText ("Found 1 comment threads:" +:+ nl +:+ nl).
Proof. vm_compute. repeat split. Qed.

(** C7: when the full-comments handler ends its loop with a thread count of
    zero, it answers with [No unresolved comments found on that PR.] if the
    filter was set and with [No comments found on that PR.] if not; the two
    messages differ. *)
Theorem full_comments_zero_count_message s req prURL owner repo prNumber threads :
  mcp.RequireString req "pull_request_url" = inl prURL ->
  parsePRURL prURL = inl (owner, repo, prNumber) ->
  graphqlQuery s {| varOwner := owner; varRepo := repo;
                    varPrNumber := githubv4.Int prNumber |} = inl threads ->
  snd (fullLoop (unresolvedOnlyOf req) threads) = 0 ->
  getFullCommentsHandler s req
  = (mcp.NewToolResultText
       (if unresolvedOnlyOf req
        then "No unresolved comments found on that PR."
        else "No comments found on that PR."), None)
  /\ "No unresolved comments found on that PR." <> "No comments found on that PR.".
Proof.
  intros Hreq Hparse Hq Hz. split; [|discriminate].
  unfold getFullCommentsHandler. rewrite Hreq, Hparse, Hq.
  rewrite formatFull_eq, Hz. reflexivity.
Qed.

Lemma full_comments_zero_count_message_witness :
  let resolved := {| IsResolved := true; Comments := [Sample.comment "al" "ok"] |} in
  getFullCommentsHandler (Sample.service 0 [] [resolved])
    (Sample.args [("pull_request_url", mcp.AString Sample.prURL);
                  ("unresolved_only", mcp.AString "true")])
  = (mcp.NewToolResultText "No unresolved comments found on that PR.", None)
  /\ getFullCommentsHandler (Sample.service 0 [] [])
       (Sample.args [("pull_request_url", mcp.AString Sample.prURL)])
     = (mcp.NewToolResultText "No comments found on that PR.", None).
Proof.
  intros resolved. split.
  - refine (proj1 (full_comments_zero_count_message
             (Sample.service 0 [] [resolved])
             (Sample.args [("pull_request_url", mcp.AString Sample.prURL);
                           ("unresolved_only", mcp.AString "true")])
             Sample.prURL "o" "r" 1 [resolved] _ _ _ _)); vm_compute; reflexivity.
  - refine (proj1 (full_comments_zero_count_message
             (Sample.service 0 [] [])
             (Sample.args [("pull_request_url", mcp.AString Sample.prURL)])
             Sample.prURL "o" "r" 1 [] _ _ _ _)); vm_compute; reflexivity.
Defined.

(** ** Failures of a request *)

(** C8: a missing (or non-string) [pull_request_url], a URL [parsePRURL]
    rejects, an error of the remote call and a status other than 200 each
    make the handler return a tool result flagged as an error that carries
    the message; the Go [error] of every handler is [nil] on every path. *)
Theorem request_failures_are_tool_errors s req :
  (snd (listPullRequestsHandler s req) = None
   /\ snd (getUnresolvedCommentsHandler s req) = None
   /\ snd (getFullCommentsHandler s req) = None)
  /\ (forall err,
        restSearchIssues s (searchQuery (mcp.GetString req "state" "open")) searchOpts
        = inr err ->
        listPullRequestsHandler s req
        = (mcp.NewToolResultError ("Error searching GitHub: " +:+ err), None))
  /\ (forall result resp,
        restSearchIssues s (searchQuery (mcp.GetString req "state" "open")) searchOpts
        = inl (result, resp) ->
        github.StatusCode resp <> 200 ->
        listPullRequestsHandler s req
        = (mcp.NewToolResultError
             ("GitHub API returned non-200 status: " +:+ github.Status resp), None))
  /\ (forall e,
        mcp.RequireString req "pull_request_url" = inr e ->
        let r := (mcp.NewToolResultError "Missing required argument: pull_request_url",
                  None) in
        getUnresolvedCommentsHandler s req = r /\ getFullCommentsHandler s req = r)
  /\ (forall prURL err,
        mcp.RequireString req "pull_request_url" = inl prURL ->
        parsePRURL prURL = inr err ->
        let r := (mcp.NewToolResultError ("Invalid PR URL: " +:+ err), None) in
        getUnresolvedCommentsHandler s req = r /\ getFullCommentsHandler s req = r)
  /\ (forall prURL owner repo prNumber err,
        mcp.RequireString req "pull_request_url" = inl prURL ->
        parsePRURL prURL = inl (owner, repo, prNumber) ->
        graphqlQuery s {| varOwner := owner; varRepo := repo;
                          varPrNumber := githubv4.Int prNumber |} = inr err ->
        let r := (mcp.NewToolResultError ("GitHub GraphQL query failed: " +:+ err),
                  None) in
        getUnresolvedCommentsHandler s req = r /\ getFullCommentsHandler s req = r).
Proof.
  split; [|split; [|split; [|split; [|split]]]].
  - unfold listPullRequestsHandler, getUnresolvedCommentsHandler,
      getFullCommentsHandler.
    repeat split.
    + destruct (restSearchIssues s _ _) as [[result resp]|err]; [|reflexivity].
      destruct (negb _); [reflexivity|]. now destruct (_ =? 0).
    + destruct (mcp.RequireString req _) as [u|e]; [|reflexivity].
      destruct (parsePRURL u) as [[[o r] n]|e]; [|reflexivity].
      now destruct (graphqlQuery s _).
    + destruct (mcp.RequireString req _) as [u|e]; [|reflexivity].
      destruct (parsePRURL u) as [[[o r] n]|e]; [|reflexivity].
      now destruct (graphqlQuery s _).
  - intros err H. unfold listPullRequestsHandler. now rewrite H.
  - intros result resp H Hne. unfold listPullRequestsHandler. rewrite H.
    unfold httpStatusOK. destruct (Z.eqb_spec (github.StatusCode resp) 200); [lia|].
    reflexivity.
  - intros e H r. unfold getUnresolvedCommentsHandler, getFullCommentsHandler.
    now rewrite H.
  - intros u err H Hp r. unfold getUnresolvedCommentsHandler, getFullCommentsHandler.
    now rewrite H, Hp.
  - intros u o rp n err H Hp Hq r.
    unfold getUnresolvedCommentsHandler, getFullCommentsHandler.
    now rewrite H, Hp, Hq.
Qed.

Lemma request_failures_are_tool_errors_witness :
  let down : githubService :=
    {| restSearchIssues := fun _ _ => inr "dial tcp: i/o timeout";
       graphqlQuery := fun _ => inr "401 Unauthorized" |} in
  listPullRequestsHandler down (Sample.args [])
  = (mcp.NewToolResultError "Error searching GitHub: dial tcp: i/o timeout", None)
  /\ getFullCommentsHandler down (Sample.args [("pull_request_url", mcp.ANumber 3)])
     = (mcp.NewToolResultError "Missing required argument: pull_request_url", None)
  /\ getUnresolvedCommentsHandler down
       (Sample.args [("pull_request_url", mcp.AString "https://github.com/o/r/issues/1")])
     = (mcp.NewToolResultError
          "Invalid PR URL: invalid PR URL format. Expected: .../owner/repo/pull/123",
        None)
  /\ getUnresolvedCommentsHandler down
       (Sample.args [("pull_request_url", mcp.AString Sample.prURL)])
     = (mcp.NewToolResultError "GitHub GraphQL query failed: 401 Unauthorized", None).
Proof.
  intros down.
  split; [|split; [|split]].
  - destruct (request_failures_are_tool_errors down (Sample.args []))
      as (_ & H & _).
    apply (H "dial tcp: i/o timeout"). vm_compute. reflexivity.
  - destruct (request_failures_are_tool_errors down
                (Sample.args [("pull_request_url", mcp.ANumber 3)]))
      as (_ & _ & _ & H & _).
    refine (proj2 (H _ _)). vm_compute. reflexivity.
  - destruct (request_failures_are_tool_errors down
                (Sample.args [("pull_request_url",
                               mcp.AString "https://github.com/o/r/issues/1")]))
      as (_ & _ & _ & _ & H & _).
    refine (proj1 (H "https://github.com/o/r/issues/1" errInvalidFormat _ _));
      vm_compute; reflexivity.
  - destruct (request_failures_are_tool_errors down
                (Sample.args [("pull_request_url", mcp.AString Sample.prURL)]))
      as (_ & _ & _ & _ & _ & H).
    refine (proj1 (H Sample.prURL "o" "r" 1 "401 Unauthorized" _ _ _));
      vm_compute; reflexivity.
Defined.

(** ** [list_pull_requests] *)

Section ListPullRequests.

Lemma searchQuery_unfiltered state :
  state <> "open" -> state <> "closed" -> searchQuery state = "is:pr author:@me".
Proof.
  intros Ho Hc. unfold searchQuery.
  destruct (String.eqb_spec state "open"); [contradiction|].
  destruct (String.eqb_spec state "closed"); [contradiction|].
  reflexivity.
Qed.

(** The answer to a search that succeeded with at least one match. *)
Lemma listPullRequests_found s req result resp :
  restSearchIssues s (searchQuery (mcp.GetString req "state" "open")) searchOpts
  = inl (result, resp) ->
  github.StatusCode resp = 200 ->
  github.GetTotal result <> 0 ->
  listPullRequestsHandler s req
  = (mcp.NewToolResultText
       ("Found " +:+ Str.fmt_d (github.GetTotal result)
          +:+ " pull requests (state: " +:+ mcp.GetString req "state" "open"
          +:+ "):" +:+ nl +:+ nl
          +:+ concatText (map issueLine (github.Issues result))), None).
Proof.
  intros H Hs Ht. unfold listPullRequestsHandler. rewrite H, Hs.
  unfold httpStatusOK. cbn [Z.eqb Pos.eqb negb].
  destruct (Z.eqb_spec (github.GetTotal result) 0); [contradiction|].
  rewrite fold_append. now str_norm.
Qed.

Lemma GetString_single key value def :
  mcp.GetString (Sample.args [(key, mcp.AString value)]) key def = value.
Proof.
  unfold mcp.GetString, Sample.args. cbn [mcp.Arguments list_to_map foldr].
  now rewrite lookup_insert_eq.
Qed.

(** The answer to a request whose state is neither [open] nor [closed]. *)
Lemma listPullRequests_unfiltered s state :
  state <> "open" -> state <> "closed" ->
  listPullRequestsHandler s (Sample.args [("state", mcp.AString state)])
  = match restSearchIssues s "is:pr author:@me" searchOpts with
    | inr err =>
        (mcp.NewToolResultError ("Error searching GitHub: " +:+ err), None)
    | inl (result, resp) =>
        if negb (github.StatusCode resp =? 200) then
          (mcp.NewToolResultError
             ("GitHub API returned non-200 status: " +:+ github.Status resp), None)
        else if github.GetTotal result =? 0 then
          (mcp.NewToolResultText
             ("No pull requests found with state: " +:+ state), None)
        else
          (mcp.NewToolResultText
             ("Found " +:+ Str.fmt_d (github.GetTotal result)
                +:+ " pull requests (state: " +:+ state +:+ "):" +:+ nl +:+ nl
                +:+ concatText (map issueLine (github.Issues result))), None)
    end.
Proof.
  intros Ho Hc. unfold listPullRequestsHandler.
  rewrite GetString_single, (searchQuery_unfiltered state Ho Hc).
  destruct (restSearchIssues s "is:pr author:@me" searchOpts)
    as [[result resp]|err]; [|reflexivity].
  unfold httpStatusOK.
  destruct (negb (github.StatusCode resp =? 200)); [reflexivity|].
  destruct (github.GetTotal result =? 0); [reflexivity|].
  rewrite fold_append. now str_norm.
Qed.

End ListPullRequests.

(** C9: the number in the header of a successful listing is the total of
    the search response, whatever the number of listed results; a response
    that honours the page size of 15 the handler asks for lists at most 15
    results, and its total can be larger. *)
Theorem list_header_reports_search_total s req result resp :
  restSearchIssues s (searchQuery (mcp.GetString req "state" "open")) searchOpts
  = inl (result, resp) ->
  github.StatusCode resp = 200 ->
  github.GetTotal result <> 0 ->
  (List.length (github.Issues result)
   <= Z.to_nat (github.PerPage (github.listOptions searchOpts)))%nat ->
  github.PerPage (github.listOptions searchOpts) = 15
  /\ listPullRequestsHandler s req
     = (mcp.NewToolResultText
          ("Found " +:+ Str.fmt_d (github.GetTotal result)
             +:+ " pull requests (state: " +:+ mcp.GetString req "state" "open"
             +:+ "):" +:+ nl +:+ nl
             +:+ concatText (map issueLine (github.Issues result))), None)
  /\ (List.length (map issueLine (github.Issues result)) <= 15)%nat
  /\ exists s' result',
       restSearchIssues s' (searchQuery (mcp.GetString req "state" "open")) searchOpts
       = inl (result', resp)
       /\ Z.of_nat (List.length (github.Issues result')) < github.GetTotal result'
       /\ listPullRequestsHandler s' req
          = (mcp.NewToolResultText
               ("Found " +:+ Str.fmt_d (github.GetTotal result')
                  +:+ " pull requests (state: " +:+ mcp.GetString req "state" "open"
                  +:+ "):" +:+ nl +:+ nl
                  +:+ concatText (map issueLine (github.Issues result'))), None).
Proof.
  intros H Hs Ht Hpage.
  split; [reflexivity|].
  split; [now apply listPullRequests_found with (resp := resp)|].
  split; [rewrite length_map; exact Hpage|].
  set (result' := {| github.GetTotal := 40;
                     github.Issues := [Sample.issue "7"; Sample.issue "9"] |}).
  exists {| restSearchIssues := fun _ _ => inl (result', resp);
            graphqlQuery := graphqlQuery s |}, result'.
  split; [reflexivity|]. split; [vm_compute; reflexivity|].
  apply listPullRequests_found with (resp := resp); [reflexivity | exact Hs |].
  discriminate.
Qed.

Lemma list_header_reports_search_total_witness :
  listPullRequestsHandler
    (Sample.service 40 [Sample.issue "7"; Sample.issue "9"] []) (Sample.args [])
  = (mcp.NewToolResultText
       ("Found 40 pull requests (state: open):" +:+ nl +:+ nl
          +:+ "- [State: open] PR 7" +:+ nl
          +:+ "  https://github.com/o/r/pull/7" +:+ nl
          +:+ "- [State: open] PR 9" +:+ nl
          +:+ "  https://github.com/o/r/pull/9" +:+ nl), None).
Proof.
  refine (proj1 (proj2 (list_header_reports_search_total
            (Sample.service 40 [Sample.issue "7"; Sample.issue "9"] [])
            (Sample.args [])
            {| github.GetTotal := 40;
               github.Issues := [Sample.issue "7"; Sample.issue "9"] |}
            {| github.StatusCode := 200; github.Status := "200 OK" |}
            _ _ _ _))).
  - vm_compute. reflexivity.
  - reflexivity.
  - discriminate.
  - vm_compute. lia.
Defined.

(** C1, as stated, fails: on the same search data the text for
    [state="bogus"] is not the text for [state="all"], because the header
    repeats the state argument. *)
Lemma list_bogus_text_differs_from_all :
  let s := Sample.service 40 [Sample.issue "7"] [] in
  listPullRequestsHandler s (Sample.args [("state", mcp.AString "bogus")])
  <> listPullRequestsHandler s (Sample.args [("state", mcp.AString "all")]).
Proof. vm_compute. discriminate. Qed.

(** C1, as the code has it: [state="bogus"] and [state="all"] send the same
    search, [is:pr author:@me] without a state clause, and get the same
    error results and the same result lines; the texts differ only in the
    state value they repeat, in the header or in the no-results message. *)
Theorem list_bogus_like_all_up_to_echo s :
  let answer (state : string) :=
    listPullRequestsHandler s (Sample.args [("state", mcp.AString state)]) in
  searchQuery "bogus" = "is:pr author:@me"
  /\ searchQuery "all" = "is:pr author:@me"
  /\ match restSearchIssues s "is:pr author:@me" searchOpts with
     | inr err =>
         answer "bogus" = answer "all"
         /\ answer "all"
            = (mcp.NewToolResultError ("Error searching GitHub: " +:+ err), None)
     | inl (result, resp) =>
         if negb (github.StatusCode resp =? 200) then
           answer "bogus" = answer "all"
           /\ answer "all"
              = (mcp.NewToolResultError
                   ("GitHub API returned non-200 status: " +:+ github.Status resp),
                 None)
         else if github.GetTotal result =? 0 then
           forall state, state = "bogus" \/ state = "all" ->
             answer state
             = (mcp.NewToolResultText
                  ("No pull requests found with state: " +:+ state), None)
         else
           forall state, state = "bogus" \/ state = "all" ->
             answer state
             = (mcp.NewToolResultText
                  ("Found " +:+ Str.fmt_d (github.GetTotal result)
                     +:+ " pull requests (state: " +:+ state +:+ "):" +:+ nl +:+ nl
                     +:+ concatText (map issueLine (github.Issues result))), None)
     end.
Proof.
  intros answer.
  split; [reflexivity|]. split; [reflexivity|].
  assert (Hb : answer "bogus" = _)
    by (apply (listPullRequests_unfiltered s "bogus"); discriminate).
  assert (Ha : answer "all" = _)
    by (apply (listPullRequests_unfiltered s "all"); discriminate).
  destruct (restSearchIssues s "is:pr author:@me" searchOpts)
    as [[result resp]|err].
  - destruct (negb (github.StatusCode resp =? 200)).
    + rewrite Hb, Ha. split; reflexivity.
    + destruct (github.GetTotal result =? 0);
        intros state [->| ->]; assumption.
  - rewrite Hb, Ha. split; reflexivity.
Qed.


(** ** The [unresolved_only] flag *)

Section UnresolvedOnly.

Lemma unresolvedOnlyOf_true_iff req :
  unresolvedOnlyOf req = true
  <-> mcp.Arguments req !! "unresolved_only" = Some (mcp.AString "true").
Proof.
  unfold unresolvedOnlyOf, mcp.GetString.
  destruct (mcp.Arguments req !! "unresolved_only") as [[v|b|n| |]|]; simpl;
    try (split; [discriminate | intros H; discriminate H]).
  split.
  - intros H. apply String.eqb_eq in H. now subst.
  - intros H. injection H as ->. reflexivity.
Qed.

Lemma unresolvedOnlyOf_false req :
  mcp.Arguments req !! "unresolved_only" <> Some (mcp.AString "true") ->
  unresolvedOnlyOf req = false.
Proof.
  intros H. destruct (unresolvedOnlyOf req) eqn:E; [|reflexivity].
  now apply unresolvedOnlyOf_true_iff in E.
Qed.

End UnresolvedOnly.

(** ** Previews of long comments *)

Section Preview.

Lemma firstn_3_length {A} (l : list A) :
  (3 < List.length l)%nat ->
  List.length (firstn 3 l) = 3%nat
  /\ List.length (skipn 3 l) = (List.length l - 3)%nat
  /\ l = (firstn 3 l ++ skipn 3 l)%list.
Proof.
  intros H. repeat split.
  - rewrite length_firstn. lia.
  - now rewrite length_skipn.
  - now rewrite firstn_skipn.
Qed.

End Preview.

(** C4, as stated, fails: the threshold of 200 is on the bytes of the body,
    not on its characters.  A body of 107 characters in 4 lines, which takes
    211 bytes, is cut to its first 3 lines and the marker with 1, where the
    claim has it written in full. *)
Lemma preview_cuts_body_of_107_characters :
  let body := Sample.accentedBody in
  let c := Sample.comment "al" body in
  utf8Chars body = 107%nat
  /\ String.length body = 211%nat
  /\ List.length (Str.split Str.lf body) = 4%nat
  /\ unresolvedCommentText c
     = "  - @al: " +:+ Sample.accents 26 +:+ nl +:+ Sample.accents 26 +:+ nl
         +:+ Sample.accents 26 +:+ nl +:+ "… +1 lines (ctrl+o to expand)" +:+ nl
  /\ unresolvedCommentText c <> "  - @al: " +:+ body +:+ nl.
Proof.
  vm_compute. repeat split. intros H. discriminate H.
Qed.

(** C4, as the code has it: for a comment the unresolved formatter renders
    (every comment of an unresolved thread goes through
    [unresolvedCommentText]), a body longer than 200 bytes that splits on
    newlines into more than 3 lines is written as its first 3 lines followed
    by the marker with the number of lines left; in every other case the
    body is written as it is.  A body of 500 bytes in 10 lines gives the
    first 3 lines and the marker with 7. *)
Theorem unresolved_comment_preview c :
  let body := Body c in
  let lines := Str.split Str.lf body in
  (forall t c0 cs, IsResolved t = false -> Comments t = c0 :: cs ->
     unresolvedBlock t
     = "Unresolved Thread on: " +:+ Path c0 +:+ " (Line " +:+ Str.fmt_d (Line c0)
         +:+ ")" +:+ nl
         +:+ concatText (map unresolvedCommentText (c0 :: cs))
         +:+ "  (Thread Link: " +:+ URL c0 +:+ ")" +:+ nl +:+ nl)
  /\ Str.join nl lines = body
  /\ ((200 < String.length body)%nat -> (3 < List.length lines)%nat ->
      unresolvedCommentText c
      = "  - @" +:+ AuthorLogin c +:+ ": " +:+ Str.join nl (firstn 3 lines) +:+ nl
          +:+ "… +" +:+ Str.fmt_d (Z.of_nat (List.length (skipn 3 lines)))
          +:+ " lines (ctrl+o to expand)" +:+ nl
      /\ List.length (firstn 3 lines) = 3%nat
      /\ lines = (firstn 3 lines ++ skipn 3 lines)%list)
  /\ (~ ((200 < String.length body)%nat /\ (3 < List.length lines)%nat) ->
      unresolvedCommentText c = "  - @" +:+ AuthorLogin c +:+ ": " +:+ body +:+ nl)
  /\ (String.length body = 500%nat -> Str.count Str.lf body = 9%nat ->
      unresolvedCommentText c
      = "  - @" +:+ AuthorLogin c +:+ ": " +:+ Str.join nl (firstn 3 lines) +:+ nl
          +:+ "… +7 lines (ctrl+o to expand)" +:+ nl).
Proof.
  intros body lines.
  split; [intros t c0 cs; apply unresolvedBlock_shown|].
  split; [apply join_split|].
  assert (Hlong : (200 < String.length body)%nat -> (3 < List.length lines)%nat ->
                  unresolvedCommentText c
                  = "  - @" +:+ AuthorLogin c +:+ ": "
                      +:+ Str.join nl (firstn 3 lines) +:+ nl
                      +:+ "… +" +:+ Str.fmt_d (Z.of_nat (List.length lines) - 3)
                      +:+ " lines (ctrl+o to expand)" +:+ nl).
  { intros Hb Hl. unfold unresolvedCommentText. fold body. fold lines.
    destruct (Nat.ltb_spec 200 (String.length body)); [|lia].
    destruct (Nat.ltb_spec 3 (List.length lines)); [|lia].
    reflexivity. }
  split; [|split].
  - intros Hb Hl. destruct (firstn_3_length lines Hl) as (H3 & Hrest & Hsplit).
    split; [|split; assumption].
    rewrite (Hlong Hb Hl), Hrest.
    replace (Z.of_nat (List.length lines - 3)) with (Z.of_nat (List.length lines) - 3)
      by lia.
    reflexivity.
  - intros Hn. unfold unresolvedCommentText. fold body. fold lines.
    destruct (Nat.ltb_spec 200 (String.length body)); [|reflexivity].
    destruct (Nat.ltb_spec 3 (List.length lines)); [|reflexivity].
    exfalso. apply Hn. split; assumption.
  - intros Hlen Hcount.
    assert (Hl : List.length lines = 10%nat)
      by (unfold lines; now rewrite split_length, Hcount).
    rewrite Hlong by lia. now rewrite Hl.
Qed.

Lemma unresolved_comment_preview_witness :
  unresolvedCommentText (Sample.comment "al" Sample.longBody)
  = "  - @al: " +:+ Sample.xs 49 +:+ nl +:+ Sample.xs 49 +:+ nl +:+ Sample.xs 49 +:+ nl
      +:+ "… +7 lines (ctrl+o to expand)" +:+ nl.
Proof.
  destruct (unresolved_comment_preview (Sample.comment "al" Sample.longBody))
    as (_ & _ & _ & _ & H).
  etransitivity; [apply H; vm_compute; reflexivity|].
  vm_compute. reflexivity.
Defined.

(** ** The matcher against the language of its pattern *)

Section Matcher.

Lemma plus_sound cls k s cap r :
  regexp.plus cls k s = Some (cap, r) ->
  cap <> EmptyString /\ Str.forallb cls cap = true
  /\ exists rest, s = cap +:+ rest /\ k rest = Some r.
Proof.
  revert cap r; induction s as [|c s IH]; intros cap r H; simpl in H.
  - discriminate.
  - destruct (cls c) eqn:Hc; [|discriminate].
    destruct (regexp.plus cls k s) as [[cap' r']|] eqn:Hp.
    + injection H as <- <-.
      destruct (IH cap' r' eq_refl) as (_ & Hall & rest & -> & Hk).
      split; [discriminate|]. split; [simpl; now rewrite Hc|].
      exists rest. now split.
    + destruct (k s) as [r'|] eqn:Hk; [|discriminate].
      injection H as <- <-.
      split; [discriminate|]. split; [simpl; now rewrite Hc|].
      exists s. now split.
Qed.

Lemma plus_complete cls k cap rest r :
  cap <> EmptyString -> Str.forallb cls cap = true -> k rest = Some r ->
  exists cap' r', regexp.plus cls k (cap +:+ rest) = Some (cap', r').
Proof.
  revert rest r; induction cap as [|c cap IH]; intros rest r Hne Hall Hk.
  - contradiction.
  - simpl in Hall. apply andb_true_iff in Hall as [Hc Hall].
    simpl. rewrite Hc.
    destruct (regexp.plus cls k (cap +:+ rest)) as [[cap' r']|] eqn:Hp.
    + eauto.
    + destruct cap as [|d cap].
      * simpl. rewrite Hk. eauto.
      * destruct (IH rest r) as (cap' & r' & Heq); try assumption; [discriminate|].
        rewrite Heq in Hp. discriminate.
Qed.

(** A repetition that cannot go on takes its whole run. *)
Lemma plus_whole_run cls k cap rest r :
  cap <> EmptyString -> Str.forallb cls cap = true ->
  match rest with
  | EmptyString => True
  | String c _ => cls c = false
  end ->
  k rest = Some r ->
  regexp.plus cls k (cap +:+ rest) = Some (cap, r).
Proof.
  intros Hne Hall Hstop Hk.
  assert (Hrest : regexp.plus cls k rest = None).
  { destruct rest as [|c rest]; simpl; [reflexivity | now rewrite Hstop]. }
  induction cap as [|c cap IH]; [contradiction|].
  simpl in Hall. apply andb_true_iff in Hall as [Hc Hall].
  simpl. rewrite Hc.
  destruct cap as [|d cap].
  - simpl. now rewrite Hrest, Hk.
  - rewrite IH; [reflexivity | discriminate | assumption].
Qed.

Lemma matchHere_sound re s text caps :
  regexp.matchHere re s = Some (text, caps) ->
  Matches re text caps /\ exists rest, s = text +:+ rest.
Proof.
  revert s text caps; induction re as [|[c|cls] re IH]; intros s text caps H;
    simpl in H.
  - injection H as <- <-. split; [constructor | now exists s].
  - destruct s as [|d s]; [discriminate|].
    destruct (Ascii.eqb_spec c d) as [->|]; [|discriminate].
    destruct (regexp.matchHere re s) as [[text' caps']|] eqn:Hm; [|discriminate].
    injection H as <- <-.
    destruct (IH s text' caps' Hm) as (HM & rest & ->).
    split; [now constructor | now exists rest].
  - destruct (regexp.plus cls (regexp.matchHere re) s)
      as [[cap [text' caps']]|] eqn:Hp; [|discriminate].
    injection H as <- <-.
    destruct (plus_sound _ _ _ _ _ Hp) as (Hne & Hall & rest & -> & Hk).
    destruct (IH rest text' caps' Hk) as (HM & rest' & ->).
    split; [now constructor|].
    exists rest'. now rewrite sapp_assoc.
Qed.

Lemma matchHere_complete re text caps rest :
  Matches re text caps ->
  exists text' caps', regexp.matchHere re (text +:+ rest) = Some (text', caps').
Proof.
  intros HM; induction HM as [|c re text caps HM IH|cls re cap text caps Hne Hall HM IH];
    simpl.
  - eauto.
  - rewrite Ascii.eqb_refl. destruct IH as (text' & caps' & ->). eauto.
  - destruct IH as (text' & caps' & Hk).
    rewrite sapp_assoc.
    destruct (plus_complete cls (regexp.matchHere re) cap (text +:+ rest)
                (text', caps') Hne Hall Hk) as (cap' & [t c] & ->).
    eauto.
Qed.

Lemma Matches_groups re text caps :
  Matches re text caps ->
  List.length caps = regexp.NumSubexp re.
Proof. induction 1; simpl; congruence. Qed.

(** What [FindStringSubmatch] returns is an occurrence, and it returns one
    whenever there is one. *)
Lemma find_sound re s text caps :
  regexp.FindStringSubmatch re s = text :: caps ->
  Matches re text caps /\ exists pre rest, s = pre +:+ text +:+ rest.
Proof.
  induction s as [|c s IH]; simpl.
  - destruct (regexp.matchHere re EmptyString) as [[t cs]|] eqn:Hm; [|discriminate].
    intros H; injection H as -> ->.
    destruct (matchHere_sound _ _ _ _ Hm) as (HM & rest & Hs).
    split; [exact HM|]. exists EmptyString, rest. exact Hs.
  - destruct (regexp.matchHere re (String c s)) as [[t cs]|] eqn:Hm.
    + intros H; injection H as -> ->.
      destruct (matchHere_sound _ _ _ _ Hm) as (HM & rest & Hs).
      split; [exact HM|]. exists EmptyString, rest. exact Hs.
    + intros H. destruct (IH H) as (HM & pre & rest & ->).
      split; [exact HM|]. now exists (String c pre), rest.
Qed.

(** The slice is [nil] or has one entry more than the pattern has groups. *)
Lemma find_length re s :
  regexp.FindStringSubmatch re s = []
  \/ List.length (regexp.FindStringSubmatch re s) = S (regexp.NumSubexp re).
Proof.
  destruct (regexp.FindStringSubmatch re s) as [|text caps] eqn:Hf; [now left|].
  right. destruct (find_sound _ _ _ _ Hf) as [HM _].
  simpl. now rewrite (Matches_groups _ _ _ HM).
Qed.

Lemma find_complete re pre text caps rest :
  Matches re text caps ->
  regexp.FindStringSubmatch re (pre +:+ text +:+ rest) <> [].
Proof.
  intros HM. induction pre as [|c pre IH].
  - destruct (matchHere_complete re text caps rest HM) as (t & cs & Hm).
    change (EmptyString +:+ text +:+ rest) with (text +:+ rest).
    destruct (text +:+ rest); simpl; rewrite Hm; discriminate.
  - change (String c pre +:+ text +:+ rest)
      with (String c (pre +:+ text +:+ rest)).
    cbn [regexp.FindStringSubmatch].
    destruct (regexp.matchHere re (String c (pre +:+ text +:+ rest)))
      as [[t cs]|]; [discriminate | exact IH].
Qed.

End Matcher.

(** ** [prURLRegex] and [parsePRURL] *)

Section PRURL.

Lemma Matches_lits_intro p re text caps :
  Matches re text caps -> Matches (regexp.lits p ++ re)%list (p +:+ text) caps.
Proof.
  intros HM. induction p as [|c p IH]; simpl; [exact HM | now constructor].
Qed.

Lemma Matches_lits_inv p re text caps :
  Matches (regexp.lits p ++ re)%list text caps ->
  exists t, text = p +:+ t /\ Matches re t caps.
Proof.
  revert text; induction p as [|c p IH]; intros text HM; simpl in HM.
  - now exists text.
  - inversion HM as [|c' re' text' caps' HM'|]; subst.
    destruct (IH _ HM') as (t & -> & Ht). now exists t.
Qed.

Lemma matchHere_lits p re s :
  regexp.matchHere (regexp.lits p ++ re)%list (p +:+ s)
  = match regexp.matchHere re s with
    | Some (text, caps) => Some (p +:+ text, caps)
    | None => None
    end.
Proof.
  induction p as [|c p IH]; simpl.
  - now destruct (regexp.matchHere re s) as [[t cs]|].
  - rewrite Ascii.eqb_refl, IH.
    now destruct (regexp.matchHere re s) as [[t cs]|].
Qed.

Lemma matchHere_group cls re s :
  regexp.matchHere (regexp.Group cls :: re) s
  = match regexp.plus cls (regexp.matchHere re) s with
    | Some (cap, (text, caps)) => Some (cap +:+ text, cap :: caps)
    | None => None
    end.
Proof. reflexivity. Qed.

Lemma matchHere_lit c re s :
  regexp.matchHere (regexp.Lit c :: re) (String c s)
  = match regexp.matchHere re s with
    | Some (text, caps) => Some (String c text, caps)
    | None => None
    end.
Proof. simpl. now rewrite Ascii.eqb_refl. Qed.

(** The language of [prURLRegex]. *)
Lemma Matches_prURL text caps :
  Matches prURLRegex text caps
  <-> exists owner repo digits,
        wellFormedPR owner repo digits
        /\ text = prURLText owner repo digits
        /\ caps = [owner; repo; digits].
Proof.
  unfold prURLRegex, prURLText. split.
  - intros HM.
    apply Matches_lits_inv in HM as (t1 & -> & HM).
    cbn [app] in HM.
    inversion HM as [| |cls re owner t2 caps2 Ho1 Ho2 HM2]; subst; clear HM.
    inversion HM2 as [|c re t3 caps3 HM3|]; subst; clear HM2.
    inversion HM3 as [| |cls re repo t4 caps4 Hr1 Hr2 HM4]; subst; clear HM3.
    apply (Matches_lits_inv "/pull/" [regexp.Group strconv.isDigit]) in HM4
      as (t5 & -> & HM5).
    inversion HM5 as [| |cls re digits t6 caps6 Hd1 Hd2 HM6]; subst; clear HM5.
    inversion HM6; subst.
    exists owner, repo, digits. unfold wellFormedPR.
    repeat split; try assumption.
    now rewrite sapp_nil_r.
  - intros (owner & repo & digits & (Ho1 & Ho2 & Hr1 & Hr2 & Hd1 & Hd2) & -> & ->).
    apply Matches_lits_intro. cbn [app].
    apply Matches_group; [assumption..|].
    apply (Matches_lit "/"%char).
    apply Matches_group; [assumption..|].
    apply Matches_lits_intro.
    rewrite <- (sapp_nil_r digits) at 1.
    apply Matches_group; [assumption..|]. constructor.
Qed.

(** On a text that is a pull-request URL and nothing else, the match is
    the whole text with its three parts. *)
Lemma matchHere_prURL_whole owner repo digits :
  wellFormedPR owner repo digits ->
  regexp.matchHere prURLRegex (prURLText owner repo digits)
  = Some (prURLText owner repo digits, [owner; repo; digits]).
Proof.
  intros (Ho1 & Ho2 & Hr1 & Hr2 & Hd1 & Hd2).
  pose (re3 := [regexp.Group strconv.isDigit]).
  pose (re2 := (regexp.lits "/pull/" ++ re3)%list).
  pose (re1 := regexp.Lit "/"%char :: regexp.Group notSlash :: re2).
  assert (H3 : regexp.matchHere re3 digits = Some (digits, [digits])).
  { unfold re3. rewrite matchHere_group.
    rewrite <- (sapp_nil_r digits) at 1.
    rewrite (plus_whole_run strconv.isDigit _ digits EmptyString
               (EmptyString, []) Hd1 Hd2 I eq_refl).
    now rewrite sapp_nil_r. }
  assert (H2 : regexp.matchHere re2 ("/pull/" +:+ digits)
               = Some ("/pull/" +:+ digits, [digits])).
  { unfold re2. now rewrite matchHere_lits, H3. }
  assert (H1 : regexp.matchHere re1 ("/" +:+ repo +:+ "/pull/" +:+ digits)
               = Some ("/" +:+ repo +:+ "/pull/" +:+ digits, [repo; digits])).
  { unfold re1.
    change ("/" +:+ repo +:+ "/pull/" +:+ digits)
      with (String "/" (repo +:+ "/pull/" +:+ digits)).
    rewrite matchHere_lit, matchHere_group.
    now rewrite (plus_whole_run notSlash _ repo ("/pull/" +:+ digits)
                   ("/pull/" +:+ digits, [digits]) Hr1 Hr2 eq_refl H2). }
  change prURLRegex
    with (regexp.lits "https://github.com/" ++ regexp.Group notSlash :: re1)%list.
  unfold prURLText.
  rewrite matchHere_lits, matchHere_group.
  now rewrite (plus_whole_run notSlash _ owner
                 ("/" +:+ repo +:+ "/pull/" +:+ digits)
                 ("/" +:+ repo +:+ "/pull/" +:+ digits, [repo; digits])
                 Ho1 Ho2 eq_refl H1).
Qed.

Lemma digits_total acc s :
  Str.forallb strconv.isDigit s = true -> 0 <= acc ->
  exists v, strconv.digits acc s = Some v /\ 0 <= v.
Proof.
  revert acc; induction s as [|c s IH]; intros acc Hall Hacc; simpl.
  - now exists acc.
  - simpl in Hall. apply andb_true_iff in Hall as [Hc Hall]. rewrite Hc.
    apply IH; [exact Hall|].
    unfold strconv.isDigit in Hc. unfold strconv.digitVal. lia.
Qed.

Lemma sign_digit c s :
  strconv.isDigit c = true -> strconv.sign (String c s) = (false, String c s).
Proof.
  destruct c as [[] [] [] [] [] [] [] []]; intros H; vm_compute in H;
    try discriminate H; reflexivity.
Qed.

(** [Atoi] on a run of digits: its value, unless that exceeds [int]. *)
Lemma Atoi_digits s :
  s <> EmptyString -> Str.forallb strconv.isDigit s = true ->
  0 <= decimalValue s
  /\ strconv.Atoi s
     = if decimalValue s <=? strconv.maxInt then Some (decimalValue s) else None.
Proof.
  intros Hne Hall.
  destruct (digits_total 0 s Hall ltac:(lia)) as (v & Hv & Hpos).
  unfold decimalValue. rewrite Hv. split; [exact Hpos|].
  destruct s as [|c s]; [contradiction|].
  unfold strconv.Atoi. rewrite sign_digit by (simpl in Hall; now destruct (strconv.isDigit c)).
  rewrite Hv.
  replace (strconv.minInt <=? v) with true
    by (symmetry; apply Z.leb_le; unfold strconv.minInt; lia).
  reflexivity.
Qed.

Lemma invalidNumber_not_invalidFormat d :
  @inr (string * string * Z) GoError (errInvalidNumber d) <> inr errInvalidFormat.
Proof. unfold errInvalidNumber, errInvalidFormat. simpl. intros H. discriminate H. Qed.

(** The two ways [parsePRURL] goes: no occurrence and the format error,
    or the leftmost occurrence and its parts. *)
Lemma parsePRURL_cases url :
  (regexp.FindStringSubmatch prURLRegex url = []
   /\ parsePRURL url = inr errInvalidFormat)
  \/ (exists pre owner repo digits post,
        wellFormedPR owner repo digits
        /\ url = pre +:+ prURLText owner repo digits +:+ post
        /\ parsePRURL url
           = if decimalValue digits <=? strconv.maxInt
             then inl (owner, repo, decimalValue digits)
             else inr (errInvalidNumber digits)).
Proof.
  destruct (regexp.FindStringSubmatch prURLRegex url) as [|text caps] eqn:Hf.
  - left. split; [reflexivity|]. unfold parsePRURL. now rewrite Hf.
  - right. destruct (find_sound _ _ _ _ Hf) as (HM & pre & post & Hurl).
    apply Matches_prURL in HM as (owner & repo & digits & Hwf & -> & ->).
    exists pre, owner, repo, digits, post.
    split; [exact Hwf|]. split; [exact Hurl|].
    unfold parsePRURL. rewrite Hf. cbn [List.length Nat.eqb negb nth].
    destruct Hwf as (_ & _ & _ & _ & Hd1 & Hd2).
    destruct (Atoi_digits digits Hd1 Hd2) as [_ ->].
    now destruct (decimalValue digits <=? strconv.maxInt).
Qed.

End PRURL.

(** C3, as the code has it: [parsePRURL] fails with the invalid-format error
    exactly when its input has no substring
    [https://github.com/<owner>/<repo>/pull/<digits>] (owner and repository
    non-empty and free of [/]); what it returns is the owner, the
    repository and the number of such a substring; on an input that is such
    a URL and nothing else it returns exactly its owner, its repository and
    the value of its digits when that value is at most [2^63 - 1], and fails
    with the invalid-number error when it is not. *)
Theorem parsePRURL_spec url :
  (parsePRURL url = inr errInvalidFormat <-> ~ containsPRURL url)
  /\ (forall owner repo number,
        parsePRURL url = inl (owner, repo, number) ->
        exists pre digits post,
          wellFormedPR owner repo digits
          /\ url = pre +:+ prURLText owner repo digits +:+ post
          /\ number = decimalValue digits)
  /\ (forall owner repo digits,
        wellFormedPR owner repo digits ->
        url = prURLText owner repo digits ->
        parsePRURL url
        = if decimalValue digits <=? strconv.maxInt
          then inl (owner, repo, decimalValue digits)
          else inr (errInvalidNumber digits)).
Proof.
  split; [|split].
  - split.
    + intros Hfail (pre & owner & repo & digits & post & Hwf & ->).
      destruct (parsePRURL_cases (pre +:+ prURLText owner repo digits +:+ post))
        as [[Hnil _]|(pre' & o & r & d & post' & _ & _ & Hp)].
      * revert Hnil. apply (find_complete prURLRegex pre _ [owner; repo; digits]).
        apply Matches_prURL. now exists owner, repo, digits.
      * rewrite Hp in Hfail.
        destruct (decimalValue d <=? strconv.maxInt); [discriminate|].
        now apply invalidNumber_not_invalidFormat in Hfail.
    + intros Hno.
      destruct (parsePRURL_cases url)
        as [[_ Hp]|(pre & o & r & d & post & Hwf & Hurl & _)]; [exact Hp|].
      exfalso. apply Hno. now exists pre, o, r, d, post.
  - intros owner repo number Hp.
    destruct (parsePRURL_cases url)
      as [[_ Hq]|(pre & o & r & d & post & Hwf & Hurl & Hq)];
      rewrite Hq in Hp; [discriminate|].
    destruct (decimalValue d <=? strconv.maxInt); [|discriminate].
    injection Hp as <- <- <-. now exists pre, d, post.
  - intros owner repo digits Hwf ->.
    unfold parsePRURL.
    assert (Hf : regexp.FindStringSubmatch prURLRegex (prURLText owner repo digits)
                 = [prURLText owner repo digits; owner; repo; digits]).
    { pose proof (matchHere_prURL_whole owner repo digits Hwf) as Hm.
      unfold prURLText in *.
      destruct ("https://github.com/" +:+ owner +:+ "/" +:+ repo +:+ "/pull/" +:+ digits);
        cbn [regexp.FindStringSubmatch]; now rewrite Hm. }
    rewrite Hf. cbn [List.length Nat.eqb negb nth].
    destruct Hwf as (_ & _ & _ & _ & Hd1 & Hd2).
    destruct (Atoi_digits digits Hd1 Hd2) as [_ ->].
    now destruct (decimalValue digits <=? strconv.maxInt).
Qed.

Lemma parsePRURL_spec_witness :
  parsePRURL "https://github.com/golang/go/pull/0042" = inl ("golang", "go", 42).
Proof.
  destruct (parsePRURL_spec "https://github.com/golang/go/pull/0042") as (_ & _ & H).
  apply (H "golang" "go" "0042"); [|reflexivity].
  unfold wellFormedPR. repeat split; try discriminate; vm_compute; reflexivity.
Defined.

(** C3, as stated, fails: a URL of the shape
    [scheme://host/owner/repo/pull/<digits>] with another scheme or host is
    rejected, and one whose digits exceed [int] is rejected too. *)
Lemma parsePRURL_rejects_spec_shape :
  specShape "http://github.com/o/r/pull/1"
  /\ parsePRURL "http://github.com/o/r/pull/1" = inr errInvalidFormat
  /\ specShape "https://gitlab.example/o/r/pull/1"
  /\ parsePRURL "https://gitlab.example/o/r/pull/1" = inr errInvalidFormat
  /\ specShape "https://github.com/o/r/pull/99999999999999999999"
  /\ parsePRURL "https://github.com/o/r/pull/99999999999999999999"
     = inr (errInvalidNumber "99999999999999999999").
Proof.
  split; [|split; [|split; [|split; [|split]]]]; try (vm_compute; reflexivity).
  - exists "http", "github.com", "o", "r", "1".
    repeat split; try discriminate; try reflexivity.
  - exists "https", "gitlab.example", "o", "r", "1".
    repeat split; try discriminate; try reflexivity.
  - exists "https", "github.com", "o", "r", "99999999999999999999".
    repeat split; try discriminate; try reflexivity.
Qed.

(** * Further properties of the handlers *)

(** ** [list_pull_requests]: the state argument and the error flag *)

(** X1: a request whose [state] argument is absent, or is not a string, is
    answered exactly as the same request with [state] set to [open]; its
    search is [is:pr author:@me is:open]. *)
Theorem list_default_state_is_open s req :
  (forall v, mcp.Arguments req !! "state" <> Some (mcp.AString v)) ->
  searchQuery (mcp.GetString req "state" "open") = "is:pr author:@me is:open"
  /\ listPullRequestsHandler s req
     = listPullRequestsHandler s
         {| mcp.Arguments := <["state" := mcp.AString "open"]> (mcp.Arguments req) |}.
Proof.
  intros Hno.
  assert (Hd : mcp.GetString req "state" "open" = "open").
  { unfold mcp.GetString.
    destruct (mcp.Arguments req !! "state") as [[v| | | |]|] eqn:E; try reflexivity.
    now destruct (Hno v). }
  assert (Hi : mcp.GetString
                 {| mcp.Arguments := <["state" := mcp.AString "open"]> (mcp.Arguments req) |}
                 "state" "open" = "open").
  { unfold mcp.GetString. cbn [mcp.Arguments]. now rewrite lookup_insert_eq. }
  split; [now rewrite Hd|].
  unfold listPullRequestsHandler. now rewrite Hd, Hi.
Qed.

Lemma list_default_state_is_open_witness :
  let s := Sample.service 3 [Sample.issue "5"] [] in
  listPullRequestsHandler s (Sample.args [("state", mcp.ANumber 1)])
  = listPullRequestsHandler s (Sample.args [("state", mcp.AString "open")]).
Proof.
  intros s.
  etransitivity.
  - refine (proj2 (list_default_state_is_open s
                     (Sample.args [("state", mcp.ANumber 1)]) _)).
    intros v. vm_compute. discriminate.
  - vm_compute. reflexivity.
Defined.

(** X2: the result of [list_pull_requests] is flagged as an error exactly
    when the search call returns an error or a status other than 200; a
    total of zero is a success, [No pull requests found with state: ...],
    whatever the response lists. *)
Theorem list_error_flag_iff_search_failed s req :
  let outcome :=
    restSearchIssues s (searchQuery (mcp.GetString req "state" "open")) searchOpts in
  (mcp.IsError (fst (listPullRequestsHandler s req)) = true
   <-> (exists err, outcome = inr err)
       \/ (exists result resp,
             outcome = inl (result, resp) /\ github.StatusCode resp <> 200))
  /\ (forall result resp,
        outcome = inl (result, resp) ->
        github.StatusCode resp = 200 -> github.GetTotal result = 0 ->
        listPullRequestsHandler s req
        = (mcp.NewToolResultText
             ("No pull requests found with state: "
                +:+ mcp.GetString req "state" "open"), None)).
Proof.
  intros outcome. subst outcome. unfold listPullRequestsHandler, httpStatusOK.
  destruct (restSearchIssues s _ searchOpts) as [[result resp]|err].
  - split.
    + destruct (Z.eqb_spec (github.StatusCode resp) 200) as [He|Hne]; cbn [negb].
      * destruct (github.GetTotal result =? 0); cbn [fst mcp.IsError mcp.NewToolResultText];
          (split; [discriminate|]);
          (intros [[err H]|(r & p & H & Hne)]; [discriminate|]);
          injection H as <- <-; contradiction.
      * split; [|reflexivity]. intros _. right. now exists result, resp.
    + intros r p H Hs Ht. injection H as <- <-. rewrite Hs, Ht. reflexivity.
  - split; [|intros r p H; discriminate].
    split; [|reflexivity]. intros _. left. now exists err.
Qed.

(** ** What the two formatters count *)

Section Counting.

Lemma unresolved_step_resolved st t :
  IsResolved t = true -> unresolvedStep st t = st.
Proof. intros H. destruct st as [b n]. unfold unresolvedStep. now rewrite H. Qed.

Lemma full_step_filtered st t :
  IsResolved t = true -> fullStep true st t = st.
Proof. intros H. destruct st as [b n]. unfold fullStep. now rewrite H. Qed.

Lemma full_step_unresolved uo st t :
  IsResolved t = false -> fullStep uo st t = fullStep false st t.
Proof.
  intros H. destruct st as [b n]. unfold fullStep. rewrite H.
  now rewrite andb_false_r.
Qed.

Lemma unresolved_fold_filter threads st :
  fold_left unresolvedStep threads st
  = fold_left unresolvedStep (unresolvedThreads threads) st.
Proof.
  revert st; induction threads as [|t rest IH]; intros st; [reflexivity|].
  cbn [unresolvedThreads List.filter fold_left].
  destruct (IsResolved t) eqn:Hr; cbn [negb fold_left].
  - rewrite unresolved_step_resolved by exact Hr. apply IH.
  - apply IH.
Qed.

Lemma full_fold_filter threads st :
  fold_left (fullStep true) threads st
  = fold_left (fullStep false) (unresolvedThreads threads) st.
Proof.
  revert st; induction threads as [|t rest IH]; intros st; [reflexivity|].
  cbn [unresolvedThreads List.filter fold_left].
  destruct (IsResolved t) eqn:Hr; cbn [negb fold_left].
  - rewrite full_step_filtered by exact Hr. apply IH.
  - rewrite (full_step_unresolved true) by exact Hr. apply IH.
Qed.

Lemma sumZ_unresolved_length threads :
  sumZ (map unresolvedCounted threads)
  = Z.of_nat (List.length (unresolvedThreads threads)).
Proof.
  induction threads as [|t rest IH]; [reflexivity|].
  cbn [map sumZ fold_right unresolvedThreads List.filter].
  rewrite unresolvedCounted_spec. fold (sumZ (map unresolvedCounted rest)).
  rewrite IH. fold (unresolvedThreads rest).
  destruct (IsResolved t); cbn [negb List.length]; lia.
Qed.

Lemma sumZ_full_length threads :
  sumZ (map (fullCounted false) threads) = Z.of_nat (List.length threads).
Proof.
  induction threads as [|t rest IH]; [reflexivity|].
  cbn [map sumZ fold_right List.length].
  rewrite fullCounted_spec. fold (sumZ (map (fullCounted false) rest)).
  rewrite IH. cbn [andb]. lia.
Qed.

Lemma found_text_not_none_text n mid body msg :
  mcp.NewToolResultText ("Found " +:+ n +:+ mid +:+ body)
  <> mcp.NewToolResultText (String "N" msg).
Proof. intros H. discriminate H. Qed.

Lemma unresolvedLoop_count threads :
  snd (unresolvedLoop threads) = Z.of_nat (List.length (unresolvedThreads threads)).
Proof. rewrite unresolvedLoop_eq. apply sumZ_unresolved_length. Qed.

Lemma fullLoop_count_all threads :
  snd (fullLoop false threads) = Z.of_nat (List.length threads).
Proof. rewrite fullLoop_eq. apply sumZ_full_length. Qed.

Lemma fullLoop_count_filtered threads :
  snd (fullLoop true threads) = Z.of_nat (List.length (unresolvedThreads threads)).
Proof.
  unfold fullLoop. rewrite full_fold_filter.
  apply (fullLoop_count_all (unresolvedThreads threads)).
Qed.

End Counting.

(** ** The [unresolved_only] flag in the handler *)

(** C10: the filter of [get_full_comments] is on exactly when the
    [unresolved_only] argument is the string [true].  With that value a
    request that fetches its threads is answered with the filtered report,
    the one of the unresolved threads alone; with any other value (another
    string such as [True] or [1], a JSON boolean, a number) and with the
    argument absent it is answered with the unfiltered report of all the
    threads, the same answer as with the argument removed.  The tool
    declares the parameter as a boolean. *)
Theorem unresolved_only_is_exact_string_true s req :
  (unresolvedOnlyOf req = true
   <-> mcp.Arguments req !! "unresolved_only" = Some (mcp.AString "true"))
  /\ (forall prURL owner repo prNumber threads,
        mcp.RequireString req "pull_request_url" = inl prURL ->
        parsePRURL prURL = inl (owner, repo, prNumber) ->
        graphqlQuery s {| varOwner := owner; varRepo := repo;
                          varPrNumber := githubv4.Int prNumber |} = inl threads ->
        (mcp.Arguments req !! "unresolved_only" = Some (mcp.AString "true") ->
         getFullCommentsHandler s req = (formatFull true threads, None)
         /\ fullLoop true threads = fullLoop false (unresolvedThreads threads))
        /\ (mcp.Arguments req !! "unresolved_only" <> Some (mcp.AString "true") ->
            getFullCommentsHandler s req = (formatFull false threads, None)
            /\ snd (fullLoop false threads) = Z.of_nat (List.length threads)))
  /\ (mcp.Arguments req !! "unresolved_only" <> Some (mcp.AString "true") ->
      unresolvedOnlyOf req = false
      /\ getFullCommentsHandler s req
         = getFullCommentsHandler s
             {| mcp.Arguments := delete "unresolved_only" (mcp.Arguments req) |})
  /\ unresolvedOnlyOf (Sample.args [("unresolved_only", mcp.AString "True")]) = false
  /\ unresolvedOnlyOf (Sample.args [("unresolved_only", mcp.AString "1")]) = false
  /\ unresolvedOnlyOf (Sample.args [("unresolved_only", mcp.ABool true)]) = false
  /\ unresolvedOnlyOf (Sample.args []) = false
  /\ mcp.declaredType getFullCommentsTool "unresolved_only" = Some mcp.TBoolean.
Proof.
  split; [apply unresolvedOnlyOf_true_iff|].
  split; [|split; [|repeat split; vm_compute; reflexivity]].
  - intros prURL owner repo prNumber threads Hreq Hparse Hq.
    unfold getFullCommentsHandler. rewrite Hreq, Hparse, Hq.
    split.
    + intros Htrue. apply unresolvedOnlyOf_true_iff in Htrue. rewrite Htrue.
      split; [reflexivity | apply full_fold_filter].
    + intros Hne. rewrite (unresolvedOnlyOf_false req Hne).
      split; [reflexivity | apply fullLoop_count_all].
  - intros Hne. pose proof (unresolvedOnlyOf_false req Hne) as Hf.
    split; [exact Hf|].
    assert (Hd : unresolvedOnlyOf
                   {| mcp.Arguments := delete "unresolved_only" (mcp.Arguments req) |}
                 = false).
    { apply unresolvedOnlyOf_false. cbn [mcp.Arguments].
      now rewrite lookup_delete_eq. }
    unfold getFullCommentsHandler, mcp.RequireString. cbn [mcp.Arguments].
    rewrite lookup_delete_ne by discriminate.
    now rewrite Hf, Hd.
Qed.

Lemma unresolved_only_is_exact_string_true_witness :
  let threads := [ {| IsResolved := true; Comments := [Sample.comment "al" "ok"] |} ] in
  let s := Sample.service 0 [] threads in
  let request value :=
    Sample.args [("pull_request_url", mcp.AString Sample.prURL);
                 ("unresolved_only", value)] in
  getFullCommentsHandler s (request (mcp.AString "true"))
  = (mcp.NewToolResultText "No unresolved comments found on that PR.", None)
  /\ getFullCommentsHandler s (request (mcp.ABool true))
     = (mcp.NewToolResultText
          ("Found 1 comment threads:" +:+ nl +:+ nl
             +:+ "=== Resolved Thread on: main.go (Line 7) ===" +:+ nl
             +:+ "@al:" +:+ nl +:+ "ok" +:+ nl +:+ nl
             +:+ "(Thread Link: https://github.com/o/r/pull/1#discussion_r1)"
             +:+ nl +:+ nl), None)
  /\ getFullCommentsHandler s (request (mcp.ABool true))
     = getFullCommentsHandler s
         (Sample.args [("pull_request_url", mcp.AString Sample.prURL)]).
Proof.
  intros threads s request.
  destruct (unresolved_only_is_exact_string_true s (request (mcp.AString "true")))
    as (_ & Hon & _).
  destruct (unresolved_only_is_exact_string_true s (request (mcp.ABool true)))
    as (_ & Hoff & Hsame & _).
  split; [|split].
  - destruct (Hon Sample.prURL "o" "r" 1 threads) as [H _];
      [vm_compute; reflexivity ..|].
    destruct H as [H _]; [vm_compute; reflexivity|].
    etransitivity; [exact H|]. vm_compute. reflexivity.
  - destruct (Hoff Sample.prURL "o" "r" 1 threads) as [_ H];
      [vm_compute; reflexivity ..|].
    destruct H as [H _]; [vm_compute; discriminate|].
    etransitivity; [exact H|]. vm_compute. reflexivity.
  - destruct Hsame as [_ H]; [vm_compute; discriminate|].
    etransitivity; [exact H|]. vm_compute. reflexivity.
Defined.

(** X3: the unresolved formatter ignores resolved threads altogether (its
    text and count are those of the list without them), and the number it
    reports is the number of unresolved threads, with or without comments. *)
Theorem unresolved_count_is_number_of_unresolved_threads threads :
  unresolvedLoop threads = unresolvedLoop (unresolvedThreads threads)
  /\ snd (unresolvedLoop threads)
     = Z.of_nat (List.length (unresolvedThreads threads))
  /\ formatUnresolved threads = formatUnresolved (unresolvedThreads threads).
Proof.
  assert (H : unresolvedLoop threads = unresolvedLoop (unresolvedThreads threads))
    by apply unresolved_fold_filter.
  split; [exact H|]. split.
  - apply unresolvedLoop_count.
  - unfold formatUnresolved. now rewrite H.
Qed.

(** X4: without the filter the full formatter counts every thread it is
    given; with [unresolved_only] it does what it does without the filter on
    the list of unresolved threads, so its count is the one the unresolved
    formatter reports. *)
Theorem full_count_and_filter threads :
  snd (fullLoop false threads) = Z.of_nat (List.length threads)
  /\ fullLoop true threads = fullLoop false (unresolvedThreads threads)
  /\ snd (fullLoop true threads) = snd (unresolvedLoop threads).
Proof.
  assert (H : fullLoop true threads = fullLoop false (unresolvedThreads threads))
    by apply full_fold_filter.
  split; [apply fullLoop_count_all|].
  split; [exact H|].
  now rewrite fullLoop_count_filtered, unresolvedLoop_count.
Qed.

(** X5: the formatters answer with their none-found message exactly when
    nothing passes their filter: the unresolved formatter, and the full one
    with [unresolved_only], when every thread is resolved; the full one
    without the filter when there is no thread at all. *)
Theorem none_found_iff_nothing_selected threads :
  (formatUnresolved threads
   = mcp.NewToolResultText "No unresolved comments found on that PR."
   <-> unresolvedThreads threads = [])
  /\ (formatFull true threads
      = mcp.NewToolResultText "No unresolved comments found on that PR."
      <-> unresolvedThreads threads = [])
  /\ (formatFull false threads = mcp.NewToolResultText "No comments found on that PR."
      <-> threads = []).
Proof.
  rewrite formatUnresolved_eq, !formatFull_eq.
  rewrite unresolvedLoop_count, fullLoop_count_filtered, fullLoop_count_all.
  assert (Hz : forall A (l : list A), (Z.of_nat (List.length l) =? 0) = true <-> l = []).
  { intros A l. rewrite Z.eqb_eq. destruct l; simpl; [tauto|]. split; [lia|discriminate]. }
  repeat split.
  - intros H. apply Hz.
    destruct (Z.of_nat (List.length (unresolvedThreads threads)) =? 0); [reflexivity|].
    now apply found_text_not_none_text in H.
  - intros H. apply Hz in H. now rewrite H.
  - intros H. apply Hz.
    destruct (Z.of_nat (List.length (unresolvedThreads threads)) =? 0); [reflexivity|].
    now apply (found_text_not_none_text _ " unresolved") in H.
  - intros H. apply Hz in H. now rewrite H.
  - intros H. apply Hz.
    destruct (Z.of_nat (List.length threads) =? 0); [reflexivity|].
    now apply (found_text_not_none_text _ EmptyString) in H.
  - intros H. apply Hz in H. now rewrite H.
Qed.

(** X6: the loops carry nothing from one thread to the next: for two lists
    of threads one after the other, the text is the two texts one after the
    other and the count is the sum of the counts. *)
Theorem loops_distribute_over_append uo l1 l2 :
  unresolvedLoop (l1 ++ l2)
  = (fst (unresolvedLoop l1) +:+ fst (unresolvedLoop l2),
     snd (unresolvedLoop l1) + snd (unresolvedLoop l2))
  /\ fullLoop uo (l1 ++ l2)
     = (fst (fullLoop uo l1) +:+ fst (fullLoop uo l2),
        snd (fullLoop uo l1) + snd (fullLoop uo l2)).
Proof.
  rewrite !unresolvedLoop_eq, !fullLoop_eq, !map_app, !concatText_app, !sumZ_app.
  split; reflexivity.
Qed.

(** ** Full bodies and previews *)

Section Bodies.

Lemma fullCommentsText_replies i cs :
  fullCommentsText (S i) cs EmptyString
  = concatText (map (fun c => replySeparator +:+ fullCommentEntry c) cs).
Proof.
  revert i; induction cs as [|c cs IH]; intros i; [reflexivity|].
  cbn [fullCommentsText map concatText].
  rewrite fullCommentsText_shift, IH.
  unfold replySeparator, fullCommentEntry. now str_norm.
Qed.

Lemma join_app sep (l1 l2 : list string) :
  l1 <> [] -> l2 <> [] ->
  Str.join sep (l1 ++ l2) = Str.join sep l1 +:+ sep +:+ Str.join sep l2.
Proof.
  intros H1 H2. induction l1 as [|p l1 IH]; [contradiction|].
  destruct l1 as [|q l1].
  - destruct l2 as [|r l2]; [contradiction | reflexivity].
  - change (Str.join sep ((p :: q :: l1) ++ l2))
      with (p +:+ sep +:+ Str.join sep ((q :: l1) ++ l2)).
    rewrite IH by discriminate.
    change (Str.join sep (p :: q :: l1)) with (p +:+ sep +:+ Str.join sep (q :: l1)).
    now rewrite !sapp_assoc.
Qed.

Lemma count_app c (a b : string) :
  Str.count c (a +:+ b) = (Str.count c a + Str.count c b)%nat.
Proof. induction a as [|x a IH]; simpl; [reflexivity | rewrite IH; lia]. Qed.

(** No piece of a split holds the separator. *)
Lemma split_pieces sep s :
  Forall (fun p => Str.count sep p = 0%nat) (Str.split sep s).
Proof.
  induction s as [|c s IH]; simpl.
  - repeat constructor.
  - destruct (Ascii.eqb c sep) eqn:E.
    + constructor; [reflexivity | exact IH].
    + destruct (Str.split sep s) as [|p ps]; [repeat constructor; simpl; now rewrite E|].
      inversion IH as [|? ? Hp Hps]; subst.
      constructor; [simpl; now rewrite E | exact Hps].
Qed.

Lemma count_join sep (l : list string) :
  Forall (fun p => Str.count sep p = 0%nat) l ->
  Str.count sep (Str.join (String sep EmptyString) l) = (List.length l - 1)%nat.
Proof.
  induction 1 as [|p l Hp Hl IH]; [reflexivity|].
  destruct l as [|q l]; [simpl; lia|].
  change (Str.join (String sep EmptyString) (p :: q :: l))
    with (p +:+ String sep EmptyString +:+ Str.join (String sep EmptyString) (q :: l)).
  rewrite !count_app, IH, Hp. simpl. rewrite Ascii.eqb_refl. lia.
Qed.

Lemma Forall_firstn_pieces {A} (P : A -> Prop) n (l : list A) :
  Forall P l -> Forall P (firstn n l).
Proof.
  intros H. revert n; induction H as [|x l Hx Hl IH]; intros [|n]; simpl;
    constructor; auto.
Qed.

End Bodies.

(** X7: the full formatter writes every comment of a thread it shows with
    its whole body, in the thread's order: the first comment, then each
    reply after the reply separator, between the header and the link of the
    first comment. *)
Theorem full_block_has_every_body_in_full uo t c cs :
  uo && IsResolved t = false -> Comments t = c :: cs ->
  fullBlock uo t
  = "=== " +:+ (if IsResolved t then "Resolved" else "Unresolved")
      +:+ " Thread on: " +:+ Path c +:+ " (Line " +:+ Str.fmt_d (Line c)
      +:+ ") ===" +:+ nl
      +:+ fullCommentEntry c
      +:+ concatText (map (fun r => replySeparator +:+ fullCommentEntry r) cs)
      +:+ nl +:+ "(Thread Link: " +:+ URL c +:+ ")" +:+ nl +:+ nl.
Proof.
  intros Hf Hc. rewrite (fullBlock_shown uo t c cs Hf Hc).
  cbn [fullCommentsText Nat.ltb Nat.leb].
  rewrite fullCommentsText_shift, fullCommentsText_replies.
  unfold fullCommentEntry. destruct (IsResolved t); now str_norm.
Qed.

Lemma full_block_has_every_body_in_full_witness :
  fullBlock false
    {| IsResolved := true;
       Comments := [Sample.comment "al" Sample.longBody; Sample.comment "bo" "ok"] |}
  = "=== Resolved Thread on: main.go (Line 7) ===" +:+ nl
      +:+ "@al:" +:+ nl +:+ Sample.longBody +:+ nl
      +:+ nl +:+ "--- Reply ---" +:+ nl
      +:+ "@bo:" +:+ nl +:+ "ok" +:+ nl
      +:+ nl +:+ "(Thread Link: https://github.com/o/r/pull/1#discussion_r1)"
      +:+ nl +:+ nl.
Proof.
  etransitivity.
  - apply (full_block_has_every_body_in_full false _
             (Sample.comment "al" Sample.longBody) [Sample.comment "bo" "ok"]);
      reflexivity.
  - vm_compute. reflexivity.
Defined.

(** X8: when the unresolved formatter cuts a body, what it shows is a
    prefix of the body that holds exactly three lines: the body is the
    preview, a newline, and the lines the marker counts. *)
Theorem preview_is_first_three_lines c :
  let body := Body c in
  let lines := Str.split Str.lf body in
  let preview := Str.join nl (firstn 3 lines) in
  (200 < String.length body)%nat -> (3 < List.length lines)%nat ->
  unresolvedCommentText c
  = "  - @" +:+ AuthorLogin c +:+ ": " +:+ preview +:+ nl
      +:+ "… +" +:+ Str.fmt_d (Z.of_nat (List.length lines) - 3)
      +:+ " lines (ctrl+o to expand)" +:+ nl
  /\ body = preview +:+ nl +:+ Str.join nl (skipn 3 lines)
  /\ Str.count Str.lf preview = 2%nat
  /\ Z.of_nat (List.length (skipn 3 lines)) = Z.of_nat (List.length lines) - 3.
Proof.
  intros body lines preview Hb Hl.
  split; [|split; [|split]].
  - unfold unresolvedCommentText. fold body. fold lines.
    destruct (Nat.ltb_spec 200 (String.length body)); [|lia].
    destruct (Nat.ltb_spec 3 (List.length lines)); [|lia].
    reflexivity.
  - rewrite <- (join_split Str.lf body) at 1. fold lines.
    rewrite <- (firstn_skipn 3 lines) at 1.
    apply join_app.
    + intros H. apply (f_equal (@List.length string)) in H.
      rewrite length_firstn in H. cbn [List.length] in H. lia.
    + intros H. apply (f_equal (@List.length string)) in H.
      rewrite length_skipn in H. cbn [List.length] in H. lia.
  - unfold preview. rewrite count_join.
    + rewrite length_firstn. lia.
    + apply Forall_firstn_pieces, split_pieces.
  - rewrite length_skipn. lia.
Qed.

Lemma preview_is_first_three_lines_witness :
  Sample.longBody
  = (Sample.xs 49 +:+ nl +:+ Sample.xs 49 +:+ nl +:+ Sample.xs 49)
      +:+ nl +:+ Str.join nl (skipn 3 (Str.split Str.lf Sample.longBody)).
Proof.
  destruct (preview_is_first_three_lines (Sample.comment "al" Sample.longBody))
    as (_ & H & _);
    [apply Nat.ltb_lt; vm_compute; reflexivity
    |apply Nat.ltb_lt; vm_compute; reflexivity|].
  etransitivity; [exact H|]. vm_compute. reflexivity.
Defined.

(** ** More on [parsePRURL] *)

Section ParseMore.

(** A match at the head of the input, whatever follows the digits. *)
Lemma matchHere_prURL_prefix owner repo digits post :
  wellFormedPR owner repo digits ->
  match post with
  | EmptyString => True
  | String c _ => strconv.isDigit c = false
  end ->
  regexp.matchHere prURLRegex (prURLText owner repo digits +:+ post)
  = Some (prURLText owner repo digits, [owner; repo; digits]).
Proof.
  intros (Ho1 & Ho2 & Hr1 & Hr2 & Hd1 & Hd2) Hpost.
  pose (re3 := [regexp.Group strconv.isDigit]).
  pose (re2 := (regexp.lits "/pull/" ++ re3)%list).
  pose (re1 := regexp.Lit "/"%char :: regexp.Group notSlash :: re2).
  assert (H3 : regexp.matchHere re3 (digits +:+ post) = Some (digits, [digits])).
  { unfold re3. rewrite matchHere_group.
    rewrite (plus_whole_run strconv.isDigit (regexp.matchHere []) digits post
               (EmptyString, []) Hd1 Hd2 Hpost eq_refl).
    now rewrite sapp_nil_r. }
  assert (H2 : regexp.matchHere re2 ("/pull/" +:+ digits +:+ post)
               = Some ("/pull/" +:+ digits, [digits])).
  { unfold re2. now rewrite matchHere_lits, H3. }
  assert (H1 : regexp.matchHere re1 ("/" +:+ repo +:+ "/pull/" +:+ digits +:+ post)
               = Some ("/" +:+ repo +:+ "/pull/" +:+ digits, [repo; digits])).
  { unfold re1.
    change ("/" +:+ repo +:+ "/pull/" +:+ digits +:+ post)
      with (String "/" (repo +:+ "/pull/" +:+ digits +:+ post)).
    rewrite matchHere_lit, matchHere_group.
    now rewrite (plus_whole_run notSlash _ repo ("/pull/" +:+ digits +:+ post)
                   ("/pull/" +:+ digits, [digits]) Hr1 Hr2 eq_refl H2). }
  change prURLRegex
    with (regexp.lits "https://github.com/" ++ regexp.Group notSlash :: re1)%list.
  replace (prURLText owner repo digits +:+ post)
    with ("https://github.com/" +:+ owner +:+ "/" +:+ repo +:+ "/pull/"
            +:+ digits +:+ post)
    by (unfold prURLText; now str_norm).
  unfold prURLText.
  rewrite matchHere_lits, matchHere_group.
  now rewrite (plus_whole_run notSlash _ owner
                 ("/" +:+ repo +:+ "/pull/" +:+ digits +:+ post)
                 ("/" +:+ repo +:+ "/pull/" +:+ digits, [repo; digits])
                 Ho1 Ho2 eq_refl H1).
Qed.

Lemma matchHere_starts s text caps :
  regexp.matchHere prURLRegex s = Some (text, caps) -> startsPRURL s.
Proof.
  intros H. destruct (matchHere_sound _ _ _ _ H) as (HM & rest & ->).
  apply Matches_prURL in HM as (owner & repo & digits & Hwf & -> & _).
  now exists owner, repo, digits, rest.
Qed.

(** The leftmost occurrence is the one [FindStringSubmatch] returns. *)
Lemma find_prURL_leftmost pre owner repo digits post :
  wellFormedPR owner repo digits ->
  (forall p1 p2, pre = p1 +:+ p2 -> p2 <> EmptyString ->
                 ~ startsPRURL (p2 +:+ prURLText owner repo digits +:+ post)) ->
  match post with
  | EmptyString => True
  | String c _ => strconv.isDigit c = false
  end ->
  regexp.FindStringSubmatch prURLRegex (pre +:+ prURLText owner repo digits +:+ post)
  = [prURLText owner repo digits; owner; repo; digits].
Proof.
  intros Hwf Hearlier Hpost. induction pre as [|c pre IH].
  - change (EmptyString +:+ prURLText owner repo digits +:+ post)
      with (prURLText owner repo digits +:+ post).
    pose proof (matchHere_prURL_prefix owner repo digits post Hwf Hpost) as Hm.
    destruct (prURLText owner repo digits +:+ post);
      cbn [regexp.FindStringSubmatch]; now rewrite Hm.
  - change (String c pre +:+ prURLText owner repo digits +:+ post)
      with (String c (pre +:+ prURLText owner repo digits +:+ post)).
    cbn [regexp.FindStringSubmatch].
    destruct (regexp.matchHere prURLRegex
                (String c (pre +:+ prURLText owner repo digits +:+ post)))
      as [[text caps]|] eqn:Hm.
    + exfalso. apply (Hearlier EmptyString (String c pre) eq_refl); [discriminate|].
      exact (matchHere_starts _ _ _ Hm).
    + apply IH. intros p1 p2 -> Hne.
      now apply (Hearlier (String c p1) p2).
Qed.

Lemma parsePRURL_at pre owner repo digits post :
  wellFormedPR owner repo digits ->
  (forall p1 p2, pre = p1 +:+ p2 -> p2 <> EmptyString ->
                 ~ startsPRURL (p2 +:+ prURLText owner repo digits +:+ post)) ->
  match post with
  | EmptyString => True
  | String c _ => strconv.isDigit c = false
  end ->
  parsePRURL (pre +:+ prURLText owner repo digits +:+ post)
  = if decimalValue digits <=? strconv.maxInt
    then inl (owner, repo, decimalValue digits)
    else inr (errInvalidNumber digits).
Proof.
  intros Hwf Hearlier Hpost. unfold parsePRURL.
  rewrite (find_prURL_leftmost pre owner repo digits post Hwf Hearlier Hpost).
  cbn [List.length Nat.eqb negb nth].
  destruct Hwf as (_ & _ & _ & _ & Hd1 & Hd2).
  destruct (Atoi_digits digits Hd1 Hd2) as [_ ->].
  now destruct (decimalValue digits <=? strconv.maxInt).
Qed.

Lemma parsePRURL_exact owner repo digits :
  wellFormedPR owner repo digits ->
  parsePRURL (prURLText owner repo digits)
  = if decimalValue digits <=? strconv.maxInt
    then inl (owner, repo, decimalValue digits)
    else inr (errInvalidNumber digits).
Proof.
  intros Hwf.
  pose proof (parsePRURL_at EmptyString owner repo digits EmptyString Hwf) as H.
  rewrite sapp_nil_r in H. apply H; [|exact I].
  intros p1 p2 Hp Hne. destruct p1; [|discriminate]. simpl in Hp. now subst.
Qed.

Lemma startsPRURL_head c s : startsPRURL (String c s) -> c = "h"%char.
Proof.
  intros (o & r & d & post & _ & H). unfold prURLText in H. simpl in H.
  now injection H.
Qed.

(** A prefix without the byte [h] holds the start of no occurrence. *)
Lemma no_h_no_start pre rest :
  Str.count "h"%char pre = 0%nat ->
  forall p1 p2, pre = p1 +:+ p2 -> p2 <> EmptyString -> ~ startsPRURL (p2 +:+ rest).
Proof.
  intros Hc p1 p2 -> Hne Hs. destruct p2 as [|c p2]; [contradiction|].
  apply startsPRURL_head in Hs. subst c.
  rewrite count_app in Hc. simpl in Hc. lia.
Qed.

(** The value of a digit run is below the power of ten of its length. *)
Lemma digits_bound acc s v :
  0 <= acc -> strconv.digits acc s = Some v ->
  acc * 10 ^ Z.of_nat (String.length s) <= v
  < (acc + 1) * 10 ^ Z.of_nat (String.length s).
Proof.
  revert acc; induction s as [|c s IH]; intros acc Hacc H; simpl in H.
  - injection H as <-. simpl. lia.
  - destruct (strconv.isDigit c) eqn:Hc; [|discriminate].
    unfold strconv.isDigit in Hc. apply andb_true_iff in Hc as [H1 H2].
    apply Z.leb_le in H1, H2.
    apply IH in H; [|unfold strconv.digitVal; lia].
    cbn [String.length]. rewrite Nat2Z.inj_succ, Z.pow_succ_r by lia.
    unfold strconv.digitVal in H.
    set (p := 10 ^ Z.of_nat (String.length s)) in *.
    assert (0 < p) by (apply Z.pow_pos_nonneg; lia).
    nia.
Qed.

End ParseMore.

Section Decimal.

Ltac eval_digit :=
  repeat match goal with
    | |- context [strconv.isDigit ?c] =>
        let b := eval vm_compute in (strconv.isDigit c) in
        change (strconv.isDigit c) with b
    | |- context [strconv.digitVal ?c] =>
        let v := eval vm_compute in (strconv.digitVal c) in
        change (strconv.digitVal c) with v
    end.

Lemma uint_all_digits d :
  Str.forallb strconv.isDigit (NilEmpty.string_of_uint d) = true.
Proof.
  induction d; cbn [NilEmpty.string_of_uint Str.forallb]; eval_digit;
    [reflexivity | exact IHd ..].
Qed.

Lemma digits_of_uint_acc d acc :
  strconv.digits (Z.pos acc) (NilEmpty.string_of_uint d)
  = Some (Z.pos (Pos.of_uint_acc d acc)).
Proof.
  revert acc; induction d; intros acc;
    cbn [NilEmpty.string_of_uint strconv.digits Pos.of_uint_acc]; eval_digit;
    [reflexivity | rewrite <- IHd; f_equal; lia ..].
Qed.

Lemma digits_of_uint d :
  strconv.digits 0 (NilEmpty.string_of_uint d) = Some (Z.of_N (Pos.of_uint d)).
Proof.
  induction d; cbn [NilEmpty.string_of_uint strconv.digits Pos.of_uint]; eval_digit;
    [reflexivity | exact IHd | apply digits_of_uint_acc ..].
Qed.

(** [%d] of a number that is not negative: digits, at least one, that
    denote the number. *)
Lemma fmt_d_digits n :
  0 <= n ->
  Str.fmt_d n <> EmptyString
  /\ Str.forallb strconv.isDigit (Str.fmt_d n) = true
  /\ decimalValue (Str.fmt_d n) = n.
Proof.
  intros Hn. destruct n as [|p|p]; [repeat split; discriminate | | lia].
  unfold Str.fmt_d, decimalValue. cbn [Z.to_int NilZero.string_of_int].
  pose proof (DecimalPos.Unsigned.to_uint_nonnil p) as Hnn.
  pose proof (DecimalPos.Unsigned.of_to p) as Hof.
  assert (Hs : NilZero.string_of_uint (Pos.to_uint p)
               = NilEmpty.string_of_uint (Pos.to_uint p))
    by (unfold NilZero.string_of_uint; destruct (Pos.to_uint p); congruence).
  rewrite Hs, digits_of_uint, Hof.
  split; [|split; [apply uint_all_digits | reflexivity]].
  destruct (Pos.to_uint p); [contradiction | discriminate ..].
Qed.

End Decimal.

(** X9: whatever [parsePRURL] returns without error is an owner and a
    repository name that are not empty and hold no [/], and a number from 0
    to [2^63 - 1]. *)
Theorem parsePRURL_result_invariant url owner repo number :
  parsePRURL url = inl (owner, repo, number) ->
  owner <> EmptyString /\ Str.forallb notSlash owner = true
  /\ repo <> EmptyString /\ Str.forallb notSlash repo = true
  /\ 0 <= number <= strconv.maxInt.
Proof.
  intros Hp.
  destruct (parsePRURL_cases url) as [[_ Hq]|(pre & o & r & d & post & Hwf & _ & Hq)];
    rewrite Hq in Hp; [discriminate|].
  destruct (Z.leb_spec (decimalValue d) strconv.maxInt) as [Hle|]; [|discriminate].
  injection Hp as <- <- <-.
  destruct Hwf as (Ho1 & Ho2 & Hr1 & Hr2 & Hd1 & Hd2).
  destruct (Atoi_digits d Hd1 Hd2) as [Hpos _].
  repeat split; assumption.
Qed.

Lemma parsePRURL_result_invariant_witness :
  0 <= 42 <= strconv.maxInt.
Proof.
  refine (proj2 (proj2 (proj2 (proj2
            (parsePRURL_result_invariant
               "https://github.com/golang/go/pull/42#issuecomment-1"
               "golang" "go" 42 _))))).
  vm_compute. reflexivity.
Defined.

(** X10: [parsePRURL] has two errors and no other: the format error, and
    the number error, which comes only with a run of digits whose value is
    above [2^63 - 1], so with no run shorter than 19 digits. *)
Theorem parsePRURL_errors url err :
  parsePRURL url = inr err ->
  err = errInvalidFormat
  \/ exists digits,
       err = errInvalidNumber digits
       /\ Str.forallb strconv.isDigit digits = true
       /\ strconv.maxInt < decimalValue digits
       /\ (19 <= String.length digits)%nat.
Proof.
  intros Hp.
  destruct (parsePRURL_cases url) as [[_ Hq]|(pre & o & r & d & post & Hwf & _ & Hq)];
    rewrite Hq in Hp; [left; congruence|].
  destruct (Z.leb_spec (decimalValue d) strconv.maxInt) as [|Hgt]; [discriminate|].
  injection Hp as <-. right. exists d.
  destruct Hwf as (_ & _ & _ & _ & Hd1 & Hd2).
  split; [reflexivity|]. split; [exact Hd2|]. split; [exact Hgt|].
  destruct (digits_total 0 d Hd2 ltac:(lia)) as (v & Hv & _).
  pose proof (digits_bound 0 d v ltac:(lia) Hv) as [_ Hb].
  unfold decimalValue in Hgt. rewrite Hv in Hgt.
  destruct (Nat.le_gt_cases 19 (String.length d)) as [|Hshort]; [assumption|].
  exfalso.
  assert (Hpow : 10 ^ Z.of_nat (String.length d) <= 10 ^ 18)
    by (apply Z.pow_le_mono_r; lia).
  unfold strconv.maxInt in Hgt. lia.
Qed.

Lemma parsePRURL_errors_witness :
  (19 <= String.length "99999999999999999999")%nat.
Proof.
  destruct (parsePRURL_errors "https://github.com/o/r/pull/99999999999999999999"
              (errInvalidNumber "99999999999999999999"))
    as [H|(d & Hd & _ & _ & Hlen)].
  - vm_compute. reflexivity.
  - discriminate H.
  - unfold errInvalidNumber in Hd.
    apply String.app_inj in Hd. now subst d.
Defined.

(** X11: of the pull-request URLs in the input the leftmost is parsed, with
    its longest run of digits; what follows it is ignored. *)
Theorem parsePRURL_takes_leftmost pre owner repo digits post :
  wellFormedPR owner repo digits ->
  (forall p1 p2, pre = p1 +:+ p2 -> p2 <> EmptyString ->
                 ~ startsPRURL (p2 +:+ prURLText owner repo digits +:+ post)) ->
  match post with
  | EmptyString => True
  | String c _ => strconv.isDigit c = false
  end ->
  parsePRURL (pre +:+ prURLText owner repo digits +:+ post)
  = if decimalValue digits <=? strconv.maxInt
    then inl (owner, repo, decimalValue digits)
    else inr (errInvalidNumber digits).
Proof. apply parsePRURL_at. Qed.

Lemma parsePRURL_takes_leftmost_witness :
  parsePRURL
    "see https://github.com/a/b/pull/7/files and https://github.com/c/d/pull/9"
  = inl ("a", "b", 7).
Proof.
  apply (parsePRURL_takes_leftmost "see " "a" "b" "7"
           "/files and https://github.com/c/d/pull/9").
  - unfold wellFormedPR. repeat split; try discriminate; reflexivity.
  - apply no_h_no_start. reflexivity.
  - reflexivity.
Defined.

(** X12: writing a pull-request URL from an owner, a repository and a
    number from 0 to [2^63 - 1], and parsing it, gives the three back. *)
Theorem parsePRURL_round_trip owner repo number :
  owner <> EmptyString -> Str.forallb notSlash owner = true ->
  repo <> EmptyString -> Str.forallb notSlash repo = true ->
  0 <= number <= strconv.maxInt ->
  parsePRURL (prURLText owner repo (Str.fmt_d number)) = inl (owner, repo, number).
Proof.
  intros Ho1 Ho2 Hr1 Hr2 [Hlo Hhi].
  destruct (fmt_d_digits number Hlo) as (Hd1 & Hd2 & Hv).
  rewrite parsePRURL_exact by (unfold wellFormedPR; repeat split; assumption).
  rewrite Hv. now destruct (Z.leb_spec number strconv.maxInt); [|lia].
Qed.

Lemma parsePRURL_round_trip_witness :
  parsePRURL (prURLText "rocq-prover" "rocq" (Str.fmt_d 20731))
  = inl ("rocq-prover", "rocq", 20731).
Proof.
  apply parsePRURL_round_trip;
    try discriminate; try reflexivity; unfold strconv.maxInt; lia.
Defined.

(** ** The comment handlers as a whole *)

Section CommentHandlers.

Lemma formatUnresolved_not_error threads :
  mcp.IsError (formatUnresolved threads) = false.
Proof.
  rewrite formatUnresolved_eq. now destruct (snd (unresolvedLoop threads) =? 0).
Qed.

Lemma formatFull_not_error uo threads :
  mcp.IsError (formatFull uo threads) = false.
Proof.
  rewrite formatFull_eq. now destruct (snd (fullLoop uo threads) =? 0).
Qed.

Lemma RequireString_url (args : gmap string mcp.ArgValue) url :
  mcp.RequireString
    {| mcp.Arguments := <["pull_request_url" := mcp.AString url]> args |}
    "pull_request_url" = inl url.
Proof. unfold mcp.RequireString. cbn [mcp.Arguments]. now rewrite lookup_insert_eq. Qed.

Lemma unresolvedOnlyOf_url (args : gmap string mcp.ArgValue) url :
  unresolvedOnlyOf {| mcp.Arguments := <["pull_request_url" := mcp.AString url]> args |}
  = unresolvedOnlyOf {| mcp.Arguments := args |}.
Proof.
  unfold unresolvedOnlyOf, mcp.GetString. cbn [mcp.Arguments].
  now rewrite lookup_insert_ne by discriminate.
Qed.

(** Both handlers on a request whose URL is a pull-request URL and nothing
    else, with a number within [int]. *)
Lemma handlers_on_url s (args : gmap string mcp.ArgValue) owner repo digits :
  wellFormedPR owner repo digits ->
  decimalValue digits <= strconv.maxInt ->
  let req := {| mcp.Arguments :=
                  <["pull_request_url" := mcp.AString (prURLText owner repo digits)]>
                    args |} in
  let variables := {| varOwner := owner; varRepo := repo;
                      varPrNumber := githubv4.Int (decimalValue digits) |} in
  getUnresolvedCommentsHandler s req
  = match graphqlQuery s variables with
    | inr err =>
        (mcp.NewToolResultError ("GitHub GraphQL query failed: " +:+ err), None)
    | inl threads => (formatUnresolved threads, None)
    end
  /\ getFullCommentsHandler s req
     = match graphqlQuery s variables with
       | inr err =>
           (mcp.NewToolResultError ("GitHub GraphQL query failed: " +:+ err), None)
       | inl threads =>
           (formatFull (unresolvedOnlyOf {| mcp.Arguments := args |}) threads, None)
       end.
Proof.
  intros Hwf Hle req variables.
  assert (Hp : parsePRURL (prURLText owner repo digits)
               = inl (owner, repo, decimalValue digits)).
  { rewrite (parsePRURL_exact owner repo digits Hwf).
    now destruct (Z.leb_spec (decimalValue digits) strconv.maxInt); [|lia]. }
  unfold getUnresolvedCommentsHandler, getFullCommentsHandler, req.
  rewrite RequireString_url, Hp, unresolvedOnlyOf_url.
  split; reflexivity.
Qed.

Lemma Int_small n : - 2 ^ 31 <= n < 2 ^ 31 -> githubv4.Int n = n.
Proof. intros H. unfold githubv4.Int. rewrite Z.mod_small; lia. Qed.

Lemma Int_congruent n m :
  n mod 2 ^ 32 = m mod 2 ^ 32 -> githubv4.Int n = githubv4.Int m.
Proof.
  intros H. unfold githubv4.Int.
  rewrite (Z.add_mod n), (Z.add_mod m), H by lia. reflexivity.
Qed.

End CommentHandlers.

(** X13: for a pull-request URL whose number is below [2^31] both comment
    handlers send one query with exactly the owner, the repository and the
    number of the URL, and answer with the formatted threads or with the
    error of the query. *)
Theorem comment_handlers_query_the_parsed_pr s (args : gmap string mcp.ArgValue)
    owner repo digits :
  wellFormedPR owner repo digits ->
  decimalValue digits < 2 ^ 31 ->
  let req := {| mcp.Arguments :=
                  <["pull_request_url" := mcp.AString (prURLText owner repo digits)]>
                    args |} in
  let variables := {| varOwner := owner; varRepo := repo;
                      varPrNumber := decimalValue digits |} in
  getUnresolvedCommentsHandler s req
  = match graphqlQuery s variables with
    | inr err =>
        (mcp.NewToolResultError ("GitHub GraphQL query failed: " +:+ err), None)
    | inl threads => (formatUnresolved threads, None)
    end
  /\ getFullCommentsHandler s req
     = match graphqlQuery s variables with
       | inr err =>
           (mcp.NewToolResultError ("GitHub GraphQL query failed: " +:+ err), None)
       | inl threads =>
           (formatFull (unresolvedOnlyOf {| mcp.Arguments := args |}) threads, None)
       end.
Proof.
  intros Hwf Hlt req variables.
  destruct Hwf as (Ho1 & Ho2 & Hr1 & Hr2 & Hd1 & Hd2).
  destruct (Atoi_digits digits Hd1 Hd2) as [Hpos _].
  assert (Hwf : wellFormedPR owner repo digits)
    by (unfold wellFormedPR; repeat split; assumption).
  pose proof (handlers_on_url s args owner repo digits Hwf) as H.
  cbv zeta in H. rewrite Int_small in H by lia.
  apply H. unfold strconv.maxInt. lia.
Qed.

Lemma comment_handlers_query_the_parsed_pr_witness :
  let thread := {| IsResolved := false; Comments := [Sample.comment "al" "nit"] |} in
  let s := {| restSearchIssues := fun _ _ => inr "unused";
              graphqlQuery := fun v =>
                if varPrNumber v =? 12 then inl [thread] else inr "not found" |} in
  getUnresolvedCommentsHandler s
    {| mcp.Arguments :=
         <["pull_request_url" := mcp.AString (prURLText "o" "r" "12")]> ∅ |}
  = (formatUnresolved [thread], None).
Proof.
  intros thread s.
  refine (proj1 (comment_handlers_query_the_parsed_pr s ∅ "o" "r" "12" _ _)).
  - unfold wellFormedPR. repeat split; try discriminate; reflexivity.
  - vm_compute. reflexivity.
Defined.

(** X14: the number of the URL goes into the query as a 32-bit integer: two
    pull-request URLs of one repository whose numbers differ by a multiple
    of [2^32] get the same answer from both comment handlers. *)
Theorem comment_handlers_wrap_pr_number s (args : gmap string mcp.ArgValue)
    owner repo d1 d2 :
  wellFormedPR owner repo d1 -> wellFormedPR owner repo d2 ->
  decimalValue d1 <= strconv.maxInt -> decimalValue d2 <= strconv.maxInt ->
  decimalValue d1 mod 2 ^ 32 = decimalValue d2 mod 2 ^ 32 ->
  let req d := {| mcp.Arguments :=
                    <["pull_request_url" := mcp.AString (prURLText owner repo d)]>
                      args |} in
  getUnresolvedCommentsHandler s (req d1) = getUnresolvedCommentsHandler s (req d2)
  /\ getFullCommentsHandler s (req d1) = getFullCommentsHandler s (req d2).
Proof.
  intros Hwf1 Hwf2 Hle1 Hle2 Hmod req.
  destruct (handlers_on_url s args owner repo d1 Hwf1 Hle1) as [Hu1 Hf1].
  destruct (handlers_on_url s args owner repo d2 Hwf2 Hle2) as [Hu2 Hf2].
  unfold req. rewrite Hu1, Hu2, Hf1, Hf2.
  rewrite (Int_congruent _ _ Hmod). split; reflexivity.
Qed.

Lemma comment_handlers_wrap_pr_number_witness :
  let s := Sample.service 0 [] [] in
  getUnresolvedCommentsHandler s
    {| mcp.Arguments :=
         <["pull_request_url" := mcp.AString "https://github.com/o/r/pull/4294967297"]> ∅ |}
  = getUnresolvedCommentsHandler s
      {| mcp.Arguments :=
           <["pull_request_url" := mcp.AString "https://github.com/o/r/pull/1"]> ∅ |}.
Proof.
  intros s.
  refine (proj1 (comment_handlers_wrap_pr_number s ∅ "o" "r" "4294967297" "1"
                   _ _ _ _ _)).
  - unfold wellFormedPR. repeat split; try discriminate; reflexivity.
  - unfold wellFormedPR. repeat split; try discriminate; reflexivity.
  - vm_compute. discriminate.
  - vm_compute. discriminate.
  - vm_compute. reflexivity.
Defined.

(** X15: the two comment handlers flag their result as an error on the same
    requests: those without a string [pull_request_url], those whose URL
    [parsePRURL] rejects, and those whose query fails; every other result is
    not flagged. *)
Theorem comment_handlers_error_flag s req :
  let failed :=
    (exists e, mcp.RequireString req "pull_request_url" = inr e)
    \/ (exists prURL,
          mcp.RequireString req "pull_request_url" = inl prURL
          /\ ((exists e, parsePRURL prURL = inr e)
              \/ (exists owner repo prNumber e,
                    parsePRURL prURL = inl (owner, repo, prNumber)
                    /\ graphqlQuery s {| varOwner := owner; varRepo := repo;
                                         varPrNumber := githubv4.Int prNumber |}
                       = inr e))) in
  (mcp.IsError (fst (getUnresolvedCommentsHandler s req)) = true <-> failed)
  /\ (mcp.IsError (fst (getFullCommentsHandler s req)) = true <-> failed).
Proof.
  intros failed. subst failed.
  unfold getUnresolvedCommentsHandler, getFullCommentsHandler.
  destruct (mcp.RequireString req "pull_request_url") as [url|e] eqn:Hr.
  2:{ split; (split; [intros _; left; now exists e | reflexivity]). }
  destruct (parsePRURL url) as [[[o r] n]|e] eqn:Hp.
  2:{ split; (split; [|reflexivity]); intros _; right; exists url;
        (split; [reflexivity|]); left; now exists e. }
  destruct (graphqlQuery s _) as [threads|e] eqn:Hq.
  - cbn [fst]. rewrite formatUnresolved_not_error, formatFull_not_error.
    split; (split; [discriminate|]);
      (intros [[e H]|(u & Hu & [[e H]|(o' & r' & n' & e & Hp' & Hq')])];
       [discriminate | injection Hu as <-; rewrite Hp in H; discriminate |]);
      injection Hu as <-; rewrite Hp in Hp'; injection Hp' as <- <- <-;
      rewrite Hq in Hq'; discriminate.
  - split; (split; [|reflexivity]); intros _; right; exists url;
      (split; [reflexivity|]); right; exists o, r, n, e; now split.
Qed.

(** ** Startup *)

Section Startup.

Lemma validateCredentials_ok usersGet :
  validateCredentials usersGet = None
  <-> exists resp, usersGet = inl resp /\ github.StatusCode resp = 200.
Proof.
  unfold validateCredentials, httpStatusUnauthorized, httpStatusOK.
  destruct usersGet as [resp|err].
  - destruct (Z.eqb_spec (github.StatusCode resp) 401) as [H401|_].
    + split; [discriminate|]. intros (r & Hr & H200). injection Hr as <-. lia.
    + destruct (Z.eqb_spec (github.StatusCode resp) 200) as [H200|Hne]; cbn [negb].
      * split; [|reflexivity]. intros _. now exists resp.
      * split; [discriminate|]. intros (r & Hr & H200). injection Hr as <-. lia.
  - split; [discriminate|]. intros (r & Hr & _). discriminate.
Qed.

(** The two ways [newGithubService] goes. *)
Lemma newGithubService_cases environ api :
  let token := Getenv environ "GITHUB_TOKEN" in
  (token <> EmptyString
   /\ (exists resp, apiUsersGet api token = inl resp /\ github.StatusCode resp = 200)
   /\ newGithubService environ api
      = inl {| restSearchIssues := apiSearchIssues api token;
               graphqlQuery := apiQuery api token |})
  \/ (~ (token <> EmptyString
         /\ exists resp, apiUsersGet api token = inl resp
                         /\ github.StatusCode resp = 200)
      /\ exists err, newGithubService environ api = inr err).
Proof.
  intros token. unfold newGithubService. fold token.
  destruct (String.eqb_spec token EmptyString) as [He|Hne].
  - right. split; [tauto | eauto].
  - destruct (validateCredentials (apiUsersGet api token)) as [err|] eqn:Hv.
    + right. split; [|eauto]. intros [_ Hok].
      apply validateCredentials_ok in Hok. congruence.
    + left. apply validateCredentials_ok in Hv. auto.
Qed.

End Startup.

(** X16: [newGithubService] gives a service exactly when [GITHUB_TOKEN] is
    set to a non-empty value and the identity call made with that token
    returns status 200 without error; the service it gives makes its calls
    with that token, and with the variable unset or empty it fails with
    [GITHUB_TOKEN environment variable is not set] whatever the API would
    answer. *)
Theorem newGithubService_succeeds_iff environ api :
  let token := Getenv environ "GITHUB_TOKEN" in
  ((exists svc, newGithubService environ api = inl svc)
   <-> token <> EmptyString
       /\ exists resp, apiUsersGet api token = inl resp
                       /\ github.StatusCode resp = 200)
  /\ (forall svc, newGithubService environ api = inl svc ->
        svc = {| restSearchIssues := apiSearchIssues api token;
                 graphqlQuery := apiQuery api token |})
  /\ (environ !! "GITHUB_TOKEN" = None \/ environ !! "GITHUB_TOKEN" = Some EmptyString ->
      forall api',
        newGithubService environ api'
        = inr "GITHUB_TOKEN environment variable is not set").
Proof.
  intros token.
  destruct (newGithubService_cases environ api)
    as [(Hne & Hok & Hs)|(Hbad & err & Hs)]; fold token in Hs.
  - split; [split; [intros _; now split | intros _; eauto]|].
    split; [intros svc H; congruence|].
    intros [H|H] api'; unfold token, Getenv in Hne; rewrite H in Hne;
      now destruct Hne.
  - split; [split; [intros [svc H]; congruence | intros H; contradiction]|].
    split; [intros svc H; congruence|].
    intros H api'. unfold newGithubService, Getenv.
    now destruct H as [-> | ->].
Qed.

Lemma newGithubService_succeeds_iff_witness :
  let api := {| apiUsersGet := fun _ =>
                  inl {| github.StatusCode := 200; github.Status := "200 OK" |};
                apiSearchIssues := fun _ _ _ => inr "unused";
                apiQuery := fun _ _ => inr "unused" |} in
  newGithubService {["HOME" := "/root"]} api
  = inr "GITHUB_TOKEN environment variable is not set".
Proof.
  intros api.
  destruct (newGithubService_succeeds_iff {["HOME" := "/root"]} api) as (_ & _ & H).
  apply H. left. reflexivity.
Defined.

(** X17: [main] reaches the serving loop exactly when [GITHUB_TOKEN] is set
    and the credentials are valid (status 200, no error).  Then the server
    it serves has the three tools [list_pull_requests],
    [get_unresolved_comments] and [get_full_comments] and no other, each with
    its handler on the service of that token, and [main] ends as the loop
    does.  Otherwise it logs [Failed to create GitHub service: ...] and
    ends fatally without serving. *)
Theorem main_serves_iff_credentials_valid environ api ServeStdio :
  let token := Getenv environ "GITHUB_TOKEN" in
  let valid :=
    token <> EmptyString
    /\ exists resp, apiUsersGet api token = inl resp /\ github.StatusCode resp = 200 in
  let running := "MCP server running. Waiting for requests from Claude CLI..." in
  (In running (fst (main environ api ServeStdio)) <-> valid)
  /\ (~ valid ->
      exists err,
        main environ api ServeStdio
        = (["Starting GitHub MCP Server...";
            "Failed to create GitHub service: " +:+ err], Fatal))
  /\ (valid ->
      exists srv,
        let svc := {| restSearchIssues := apiSearchIssues api token;
                      graphqlQuery := apiQuery api token |} in
        dom (serverTools srv)
        = ({["list_pull_requests"; "get_unresolved_comments"; "get_full_comments"]}
             : gset string)
        /\ serverTools srv !! "list_pull_requests"
           = Some (listPRsTool, listPullRequestsHandler svc)
        /\ serverTools srv !! "get_unresolved_comments"
           = Some (getUnresolvedCommentsTool, getUnresolvedCommentsHandler svc)
        /\ serverTools srv !! "get_full_comments"
           = Some (getFullCommentsTool, getFullCommentsHandler svc)
        /\ main environ api ServeStdio
           = match ServeStdio srv with
             | Some err =>
                 (["Starting GitHub MCP Server...";
                   "GitHub service initialized successfully.";
                   running;
                   "Server failed to run: " +:+ err], Fatal)
             | None =>
                 (["Starting GitHub MCP Server...";
                   "GitHub service initialized successfully.";
                   running], Returned)
             end).
Proof.
  intros token valid running.
  destruct (newGithubService_cases environ api)
    as [(Hne & Hok & Hs)|(Hbad & err & Hs)]; fold token in Hs.
  - fold token in Hne, Hok.
    assert (Hvalid : valid) by (split; assumption).
    unfold main. rewrite Hs.
    split; [|split; [intros H; contradiction|]].
    + split; [intros _; exact Hvalid|]. intros _.
      destruct (ServeStdio _); cbn; tauto.
    + intros _. eexists. cbv zeta.
      split; [|split; [|split; [|split; [|reflexivity]]]].
      * unfold AddTool, NewMCPServer. cbn [serverTools mcp.toolName
          listPRsTool getUnresolvedCommentsTool getFullCommentsTool].
        rewrite !dom_insert_L, dom_empty_L. set_solver.
      * reflexivity.
      * reflexivity.
      * reflexivity.
  - fold token in Hbad. unfold main. rewrite Hs.
    split; [|split; [intros _; now exists err | intros H; contradiction]].
    split; [|intros H; contradiction].
    cbn. intros [H|[H|[]]]; [discriminate H|].
    exfalso. unfold running in H. clear -H.
    apply (f_equal (String.get 0)) in H. discriminate H.
Qed.

Lemma main_serves_iff_credentials_valid_witness :
  let api := {| apiUsersGet := fun _ =>
                  inl {| github.StatusCode := 401; github.Status := "401 Unauthorized" |};
                apiSearchIssues := fun _ _ _ => inr "unused";
                apiQuery := fun _ _ => inr "unused" |} in
  exists err,
    main {["GITHUB_TOKEN" := "ghp_expired"]} api (fun _ => None)
    = (["Starting GitHub MCP Server...";
        "Failed to create GitHub service: " +:+ err], Fatal).
Proof.
  intros api.
  destruct (main_serves_iff_credentials_valid
              {["GITHUB_TOKEN" := "ghp_expired"]} api (fun _ => None))
    as (_ & H & _).
  apply H. intros (_ & resp & Hr & H200).
  vm_compute in Hr. injection Hr as <-. discriminate H200.
Defined.
